(** * ehualu_yolo: batch detection driver of keras-yolo3

    A shallow embedding of [research/keras-yolo3/ehualu_yolo.py] and the
    properties of its configuration loading, model acquisition, result
    encoding and batch loop.

    Conventions of the embedding.
    - Python [str] values are [string]s whose characters are the code points
      below 256; [int] values are [Z].
    - A raised exception is the [Err] branch of [result]; code that also
      talks to the outside world (prints, loads, writes) runs in the writer
      monad [io], which keeps the trace of what happened before the raise.
    - The collaborators that are not part of this file (the file system,
      the builtin [float], Keras, PIL, the letterbox transform, the
      TensorFlow session) are the fields of the record [World]. *)

From Stdlib Require Import ZArith QArith Qround List String Ascii Bool Lia Lqa.
From Stdlib Require Import DecimalString Floats Uint63.
From Stdlib Require Import DecimalZ DecimalPos.
Import ListNotations.

Open Scope string_scope.
Open Scope Z_scope.

(* ================================================================= *)
(** ** Exceptions and the two monads *)

Inductive exn : Type :=
| AssertionError (msg : string)
| IndexError
| ValueError
| TypeError
| ZeroDivisionError
| OSError
| CollaboratorError (who : string).

Inductive result (A : Type) : Type :=
| Ok (a : A)
| Err (e : exn).
Arguments Ok {A} a.
Arguments Err {A} e.

Definition rbind {A B} (m : result A) (k : A -> result B) : result B :=
  match m with
  | Ok a => k a
  | Err e => Err e
  end.

Declare Scope py_scope.
Delimit Scope py_scope with py.
Notation "x <- m ;; k" := (rbind m (fun x => k))
  (at level 61, m at next level, right associativity) : py_scope.
Notation "' p <- m ;; k" := (rbind m (fun x => match x with p => k end))
  (at level 61, p pattern, m at next level, right associativity) : py_scope.

Definition py_assert (b : bool) (msg : string) : result unit :=
  if b then Ok tt else Err (AssertionError msg).

(** [[f(x) for x in l]] where [f] may raise: the first raise wins. *)
Fixpoint list_comp {A B} (f : A -> result B) (l : list A) : result (list B) :=
  match l with
  | [] => Ok []
  | x :: r =>
      (y <- f x ;;
       ys <- list_comp f r ;;
       Ok (y :: ys))%py
  end.

(** A [for] loop over [l] threading the loop-carried variables [s]. *)
Fixpoint for_each {S A} (body : S -> A -> result S) (l : list A) (s : S)
  : result S :=
  match l with
  | [] => Ok s
  | x :: r => (s' <- body s x ;; for_each body r s')%py
  end.

(** [l[i]] for an index that is never negative. *)
Definition getitem {A} (l : list A) (i : nat) : result A :=
  match nth_error l i with
  | Some a => Ok a
  | None => Err IndexError
  end.

Definition enumerate {A} (l : list A) : list (nat * A) :=
  combine (seq 0 (List.length l)) l.

(* ================================================================= *)
(** ** Python strings *)

Definition LF : ascii := "010"%char.
Definition CR : ascii := "013"%char.

(** [str.isspace] on one character, for the code points below 256. *)
Definition isspace (c : ascii) : bool :=
  let n := nat_of_ascii c in
  ((9 <=? n) && (n <=? 13) || (28 <=? n) && (n <=? 32)
   || (n =? 133) || (n =? 160))%nat.

Fixpoint lstrip (s : string) : string :=
  match s with
  | EmptyString => EmptyString
  | String c r => if isspace c then lstrip r else s
  end.

Fixpoint rstrip (s : string) : string :=
  match s with
  | EmptyString => EmptyString
  | String c r =>
      match rstrip r with
      | EmptyString => if isspace c then EmptyString else String c EmptyString
      | r' => String c r'
      end
  end.

Definition strip (s : string) : string := rstrip (lstrip s).

(** [s.split(sep)] for a one-character separator. *)
Fixpoint split (sep : ascii) (s : string) : list string :=
  match s with
  | EmptyString => [EmptyString]
  | String c r =>
      if Ascii.eqb c sep then EmptyString :: split sep r
      else match split sep r with
           | h :: t => String c h :: t
           | [] => [String c EmptyString]
           end
  end.

Fixpoint endswith (s suffix : string) : bool :=
  String.eqb s suffix ||
  match s with
  | EmptyString => false
  | String _ r => endswith r suffix
  end.

Definition startswith (s pre : string) : bool := String.prefix pre s.

(** [sep.join(l)] *)
Definition join (sep : string) (l : list string) : string :=
  String.concat sep l.

(** [str(n)] for an integer. *)
Definition str (n : Z) : string := NilZero.string_of_int (Z.to_int n).

(** Text-mode reading translates ["\r\n"] and a lone ["\r"] to ["\n"]. *)
Fixpoint universal_newlines (s : string) : string :=
  match s with
  | EmptyString => EmptyString
  | String c r =>
      if Ascii.eqb c CR then
        match r with
        | String c2 _ =>
            if Ascii.eqb c2 LF then universal_newlines r
            else String LF (universal_newlines r)
        | EmptyString => String LF EmptyString
        end
      else String c (universal_newlines r)
  end.

(** [f.readline()] at the start of a text: the first line with its
    terminator, or the whole text when it has no terminator. *)
Fixpoint readline (s : string) : string :=
  match s with
  | EmptyString => EmptyString
  | String c r =>
      if Ascii.eqb c LF then String c EmptyString else String c (readline r)
  end.

(** [f.readlines()]: every line with its terminator. *)
Fixpoint readlines (s : string) : list string :=
  match s with
  | EmptyString => []
  | String c r =>
      if Ascii.eqb c LF then String c EmptyString :: readlines r
      else match readlines r with
           | h :: t => String c h :: t
           | [] => [String c EmptyString]
           end
  end.

(* ================================================================= *)
(** ** Numbers of the result encoder

    A box coordinate is a finite [float32]; [Q] holds its exact value.
    After [astype('int32')] a value is a NumPy 32-bit scalar, while the
    literal [0] and the image size are Python integers. *)

Inductive num : Type :=
| PyInt (z : Z)
| NpInt32 (z : Z).

Definition value (n : num) : Z :=
  match n with PyInt z | NpInt32 z => z end.

Definition int32_min : Z := - 2 ^ 31.
Definition int32_max : Z := 2 ^ 31 - 1.

Definition fits_int32 (z : Z) : bool := (int32_min <=? z) && (z <=? int32_max).

Definition wrap32 (z : Z) : Z := (z + 2 ^ 31) mod 2 ^ 32 - 2 ^ 31.

(** [np.round]: to the nearest integer, a tie to the even neighbour. *)
Definition np_round (x : Q) : Z :=
  let f := Qfloor x in
  match (x - inject_Z f ?= 1 # 2)%Q with
  | Lt => f
  | Gt => f + 1
  | Eq => if Z.even f then f else f + 1
  end.

(** [max(a, b)] and [min(a, b)] return their first argument unless the
    second is strictly better. *)
Definition py_max (a b : num) : num := if value a <? value b then b else a.
Definition py_min (a b : num) : num := if value b <? value a then b else a.

(** [a - b]: two 32-bit scalars subtract in 32 bits and wrap around; with a
    Python integer on either side the difference is exact. *)
Definition py_sub (a b : num) : num :=
  match a, b with
  | NpInt32 x, NpInt32 y => NpInt32 (wrap32 (x - y))
  | _, _ => PyInt (value a - value b)
  end.

Definition str_num (n : num) : string := str (value n).

(** PIL image: only its size matters here; [size = (width, height)]. *)
Record Image : Type := { width : Z; height : Z }.

Definition size (im : Image) : Z * Z := (width im, height im).

Definition box : Type := (Q * Q * Q * Q)%type.

Section Encoder.

(** What the C conversion of a rounded float outside the [int32] range
    yields depends on the platform. *)
Variable int32_overflow : Z -> Z.

Definition astype_int32 (z : Z) : num :=
  NpInt32 (if fits_int32 z then z else int32_overflow z).

(** Lines 133-137: the clamped corners [(top, left, bottom, right)]. *)
Definition clamp (image : Image) (b : box) : num * num * num * num :=
  let '(top, left_, bottom, right_) := b in
  let top := py_max (PyInt 0) (astype_int32 (np_round top)) in
  let left_ := py_max (PyInt 0) (astype_int32 (np_round left_)) in
  let bottom := py_min (PyInt (snd (size image))) (astype_int32 (np_round bottom)) in
  let right_ := py_min (PyInt (fst (size image))) (astype_int32 (np_round right_)) in
  (top, left_, bottom, right_).

(** Lines 133-143: the text one detection adds to [out_str]. *)
Definition box_str (image : Image) (b : box) : string :=
  let '(top, left_, bottom, right_) := clamp image b in
  let width := py_sub right_ left_ in
  let height := py_sub bottom top in
  join "_" [str_num left_; str_num top; str_num width; str_num height].

(** The body of the loop of [convert_result_to_str]. *)
Definition convert_body (boxes : list box) (scores : list Q) (image : Image)
    (out_str : string) (ic : nat * Z) : result string :=
  let (i, c) := ic in
  (b <- getitem boxes i ;;
   score <- getitem scores i ;;
   let out_str := out_str ++ box_str image b in
   Ok (if (0 <? i)%nat then out_str ++ ";" else out_str))%py.

Definition convert_result_to_str (boxes : list box) (scores : list Q)
    (classes : list Z) (image : Image) : result string :=
  for_each (convert_body boxes scores image) (rev (enumerate classes)) "".

End Encoder.

(* ================================================================= *)
(** ** Effects: the trace of what the program did *)

(** The model that [generate] ends up with. *)
Record keras_model : Type :=
  { last_output_channels : Z;   (* [layers[-1].output_shape[-1]] *)
    num_outputs : Z }.          (* [len(yolo_model.output)] *)

Inductive yolo_model : Type :=
| loaded (m : keras_model)
| tiny_yolo_body (num_anchors num_classes : Z)
| yolo_body (num_anchors num_classes : Z).

Inductive event : Type :=
| Print (line : string)
| StdoutWrite (text : string)
| LoadModel (path : string)
| LoadWeights (m : yolo_model) (path : string)
| ToCsv (path : string) (rows : list (string * string))
| CloseSession.

Definition io (A : Type) : Type := (list event * result A)%type.

Definition io_ret {A} (a : A) : io A := ([], Ok a).

Definition io_bind {A B} (m : io A) (k : A -> io B) : io B :=
  match m with
  | (t, Ok a) => let (t', r) := k a in ((t ++ t')%list, r)
  | (t, Err e) => (t, Err e)
  end.

Definition emit (e : event) : io unit := ([e], Ok tt).
Definition lift {A} (r : result A) : io A := ([], r).

Declare Scope io_scope.
Delimit Scope io_scope with io.
Notation "x <- m ;; k" := (io_bind m (fun x => k))
  (at level 61, m at next level, right associativity) : io_scope.
Notation "' p <- m ;; k" := (io_bind m (fun x => match x with p => k end))
  (at level 61, p pattern, m at next level, right associativity) : io_scope.

Fixpoint io_for_each {S A} (body : S -> A -> io S) (l : list A) (s : S)
  : io S :=
  match l with
  | [] => io_ret s
  | x :: r => (s' <- body s x ;; io_for_each body r s')%io
  end.

(** [os.path.join(a, b)] *)
Definition path_join (a b : string) : string :=
  if startswith b "/" then b
  else if String.eqb a "" || endswith a "/" then a ++ b
  else a ++ "/" ++ b.

(** [np.array(l).reshape(-1, 2)] *)
Fixpoint reshape2 {A} (l : list A) : result (list (A * A)) :=
  match l with
  | [] => Ok []
  | [_] => Err ValueError
  | a :: b :: r => (ps <- reshape2 r ;; Ok ((a, b) :: ps))%py
  end.

(** [x % 32] where [x] may be [None]. *)
Definition py_mod (x : option Z) (m : Z) : result Z :=
  match x with
  | Some z => Ok (z mod m)
  | None => Err TypeError
  end.

(** [a / b * c] on integers is computed in double precision; the counts
    converted here are non-negative and far below 2^53. *)
Definition float_of_int (z : Z) : PrimFloat.float :=
  PrimFloat.of_uint63 (Uint63.of_Z z).

Definition channels_expected (num_anchors outputs num_classes : Z)
  : PrimFloat.float :=
  PrimFloat.mul (PrimFloat.div (float_of_int num_anchors) (float_of_int outputs))
                (float_of_int (num_classes + 5)).

(* ================================================================= *)
(** ** The detector *)

Record YOLO : Type :=
  { model_path : string;
    anchors_path : string;
    classes_path : string;
    model_image_size : option Z * option Z;   (* (h, w) or (None, None) *)
    class_names : list string;
    the_model : yolo_model }.

(** The messages of the assertions. *)
Definition h5_message : string := "Keras model or weights must be a .h5 file.".
Definition size_message : string := "Multiples of 32 required".

(** The collaborators of the program, and the command-line flags. *)
Record World : Type :=
  { int32_overflow : Z -> Z;
    expand_home : string -> string;          (* [~] and [~user] *)
    read_text : string -> option string;     (* decoded file content *)
    float64 : Type;
    float : string -> option float64;        (* the builtin [float] *)
    load_model : string -> option keras_model;
    load_weights : yolo_model -> string -> bool;
    pixels : Type;
    letterbox_image : Image -> Z * Z -> result pixels;
    sess_run : pixels -> Z * Z -> result (list box * list Q * list Z);
    listdir : string -> result (list string);
    isdir : string -> bool;
    Image_open : string -> option Image;
    to_csv_ok : string -> bool }.            (* can the table be written? *)

Record Flags : Type := { img_root : string; summit_dir : string }.

Section Detector.

Variable W : World.

(** [os.path.expanduser] *)
Definition expanduser (path : string) : string :=
  if startswith path "~" then expand_home W path else path.

(** [with open(path) as f] in text mode *)
Definition open_text (path : string) : result string :=
  match read_text W path with
  | Some t => Ok (universal_newlines t)
  | None => Err OSError
  end.

Definition py_float (x : string) : result (float64 W) :=
  match float W x with
  | Some v => Ok v
  | None => Err ValueError
  end.

Definition _get_class (classes_path : string) : result (list string) :=
  let classes_path := expanduser classes_path in
  (f <- open_text classes_path ;;
   let class_names := readlines f in
   let class_names := map strip class_names in
   Ok class_names)%py.

Definition _get_anchors (anchors_path : string)
  : result (list (float64 W * float64 W)) :=
  let anchors_path := expanduser anchors_path in
  (f <- open_text anchors_path ;;
   let anchors := readline f in
   anchors <- list_comp py_float (split "," anchors) ;;
   reshape2 anchors)%py.

(** The model [generate] falls back to when the direct load fails. *)
Definition fallback_body (num_anchors num_classes : Z) : yolo_model :=
  let is_tiny_version := num_anchors =? 6 in
  if is_tiny_version
  then tiny_yolo_body (num_anchors / 2) num_classes
  else yolo_body (num_anchors / 3) num_classes.

(** Lines 52-71 of [generate]: the acquisition of the model, up to the
    confirmation line. The rest of the function (the colour table,
    [K.placeholder] and the graph built by [yolo_eval], lines 73-89) runs
    after that line and can still raise; it is not part of this
    definition. So [Ok m] says that lines 52-71 completed with the model
    [m], and the two body constructors are taken not to raise. *)
Definition generate (self_model_path : string)
    (anchors : list (float64 W * float64 W)) (class_names : list string)
  : io yolo_model :=
  let model_path := expanduser self_model_path in
  (_ <- lift (py_assert (endswith model_path ".h5")
                h5_message) ;;
   let num_anchors := Z.of_nat (List.length anchors) in
   let num_classes := Z.of_nat (List.length class_names) in
   _ <- emit (LoadModel model_path) ;;
   m <- match load_model W model_path with
        | None =>
            let m := fallback_body num_anchors num_classes in
            _ <- emit (LoadWeights m self_model_path) ;;
            _ <- lift (if load_weights W m self_model_path then Ok tt
                       else Err (CollaboratorError "load_weights")) ;;
            io_ret m
        | Some k =>
            _ <- lift (if num_outputs k =? 0 then Err ZeroDivisionError
                       else Ok tt) ;;
            _ <- lift (py_assert
                         (PrimFloat.eqb (float_of_int (last_output_channels k))
                            (channels_expected num_anchors (num_outputs k)
                               num_classes))
                         "Mismatch between model and given anchor and class sizes") ;;
            io_ret (loaded k)
        end ;;
   _ <- emit (Print (model_path ++ " model, anchors, and classes loaded.")) ;;
   io_ret m)%io.

(** [__init__], with [generate] as above; [K.get_session()] (line 34) is
    not modelled. [Ok yolo] says that the configuration was read and the
    model acquired. *)
Definition YOLO_init (model_path classes_path anchors_path : string)
  : io YOLO :=
  (class_names <- lift (_get_class classes_path) ;;
   anchors <- lift (_get_anchors anchors_path) ;;
   let model_image_size := (Some 416, Some 416) in
   m <- generate model_path anchors class_names ;;
   io_ret {| model_path := model_path;
             anchors_path := anchors_path;
             classes_path := classes_path;
             model_image_size := model_image_size;
             class_names := class_names;
             the_model := m |})%io.

(** Lines 94-101: the size the image is letterboxed to, [(w, h)]. *)
Definition boxed_image_size (model_image_size : option Z * option Z)
    (image : Image) : result (Z * Z) :=
  match model_image_size with
  | (None, None) =>
      let new_image_size := (width image - width image mod 32,
                             height image - height image mod 32) in
      Ok new_image_size
  | (h, w) =>
      (h32 <- py_mod h 32 ;;
       _ <- py_assert (h32 =? 0) size_message ;;
       w32 <- py_mod w 32 ;;
       _ <- py_assert (w32 =? 0) size_message ;;
       match w, h with
       | Some w, Some h => Ok (w, h)        (* [tuple(reversed(...))] *)
       | _, _ => Err TypeError
       end)%py
  end.

Definition detect_image (self : YOLO) (image : Image)
  : result (Image * string) :=
  (target <- boxed_image_size (model_image_size self) image ;;
   boxed_image <- letterbox_image W image target ;;
   '(out_boxes, out_scores, out_classes) <-
      sess_run W boxed_image (snd (size image), fst (size image)) ;;
   out_str <- convert_result_to_str (int32_overflow W)
                out_boxes out_scores out_classes image ;;
   Ok (image, out_str))%py.

Definition close_session (self : YOLO) : io unit := emit CloseSession.

(* --------------------------------------------------------------- *)
(** *** The batch runner *)

Variable FLAGS : Flags.

(** The body of the loop of [detect_img]; the loop carries
    [(names, boxes_str)]. *)
Definition detect_img_body (yolo : YOLO) (total : Z)
    (st : list string * list string) (ix : nat * string)
  : io (list string * list string) :=
  let '(names, boxes_str) := st in
  let (i, filename) := ix in
  let path := path_join (img_root FLAGS) filename in
  if negb (isdir W path) then
    match Image_open W path with
    | None =>
        (_ <- emit (Print ("Open Error! Try again! " ++ path)) ;;
         io_ret (names, boxes_str))%io
    | Some image =>
        ('(r_image, out_str) <- lift (detect_image yolo image) ;;
         let names := (names ++ [filename])%list in
         let boxes_str := (boxes_str ++ [out_str])%list in
         _ <- emit (StdoutWrite (String CR ">> i = " ++ str (Z.of_nat i + 1)
                                   ++ " / " ++ str total)) ;;
         io_ret (names, boxes_str))%io
    end
  else io_ret (names, boxes_str).

(** [pd.DataFrame({'name': names})] then [summit['coordinate'] = ...] *)
Definition data_frame (names boxes_str : list string)
  : result (list (string * string)) :=
  if (List.length names =? List.length boxes_str)%nat
  then Ok (combine names boxes_str)
  else Err ValueError.

Definition detect_img (yolo : YOLO) : io unit :=
  let img_root := img_root FLAGS in
  (file_list <- lift (listdir W img_root) ;;
   let total := Z.of_nat (List.length file_list) in
   '(names, boxes_str) <-
      io_for_each (detect_img_body yolo total) (enumerate file_list) ([], []) ;;
   _ <- emit (StdoutWrite (String LF "")) ;;
   summit <- lift (data_frame names boxes_str) ;;
   let path := path_join (summit_dir FLAGS) "summit.csv" in
   _ <- lift (if to_csv_ok W path then Ok tt else Err OSError) ;;
   _ <- emit (ToCsv path summit) ;;
   _ <- emit (Print ("path = " ++ path)) ;;
   close_session yolo)%io.

End Detector.

(* ================================================================= *)
(** ** A concrete world, to run the program on *)

(** A fragment of the builtin [float]: unsigned decimal integer literals,
    surrounded by optional white space. *)
Definition digit_value (c : ascii) : option Z :=
  let n := nat_of_ascii c in
  if ((48 <=? n) && (n <=? 57))%nat then Some (Z.of_nat n - 48) else None.

Fixpoint digits_value (acc : Z) (s : string) : option Z :=
  match s with
  | EmptyString => Some acc
  | String c r =>
      match digit_value c with
      | Some d => digits_value (10 * acc + d) r
      | None => None
      end
  end.

Definition float_literal (s : string) : option Q :=
  match strip s with
  | EmptyString => None
  | t => option_map inject_Z (digits_value 0 t)
  end.

Definition nl : string := String LF "".

Definition demo_world : World :=
  {| int32_overflow := fun _ => int32_min;
     expand_home := fun p => "/home/u" ++ substring 1 (String.length p) p;
     read_text := fun p =>
       if String.eqb p "cls.txt" then Some ("person" ++ nl ++ nl ++ " car " ++ nl)
       else if String.eqb p "anchors.txt" then Some ("10,14,  23,27" ++ nl)
       else if String.eqb p "odd.txt" then Some "10,14,23"
       else if String.eqb p "nan.txt" then Some "10,x"
       else None;
     float64 := Q;
     float := float_literal;
     load_model := fun _ => None;
     load_weights := fun _ _ => true;
     pixels := unit;
     letterbox_image := fun _ _ => Ok tt;
     sess_run := fun _ hw =>
       if fst hw =? 0 then Err (CollaboratorError "sess.run")
       else Ok ([(10 # 1, 5 # 1, 50 # 1, 45 # 1)%Q], [(9 # 10)%Q], [0]);
     listdir := fun d =>
       if String.eqb d "img" then Ok ["a.jpg"; "notes.txt"; "b.jpg"]
       else if String.eqb d "bad" then Ok ["a.jpg"; "zero.jpg"; "b.jpg"]
       else Err OSError;
     isdir := fun _ => false;
     Image_open := fun p =>
       if endswith p "zero.jpg" then Some {| width := 0; height := 0 |}
       else if endswith p ".jpg" then Some {| width := 100; height := 100 |}
       else None;
     to_csv_ok := fun _ => true |}.

Definition demo_yolo : YOLO :=
  {| model_path := "yolo.h5"; anchors_path := "anchors.txt";
     classes_path := "cls.txt"; model_image_size := (Some 416, Some 416);
     class_names := ["person"; ""; "car"];
     the_model := yolo_body 0 3 |}.

(** The classes the specification asks for: one entry per non-empty
    trimmed line. *)
Definition nonempty_trimmed_lines (text : string) : list string :=
  filter (fun l => negb (String.eqb l "")) (map strip (readlines text)).

Fixpoint count_LF (s : string) : nat :=
  match s with
  | EmptyString => 0
  | String c r => ((if Ascii.eqb c LF then 1 else 0) + count_LF r)%nat
  end.

(** Does the text end in a line without terminator? *)
Fixpoint unterminated (s : string) : bool :=
  match s with
  | EmptyString => false
  | String c EmptyString => negb (Ascii.eqb c LF)
  | String _ r => unterminated r
  end.

(** *** What a pass over a directory should leave behind *)

Definition open_hint (path : string) : event :=
  Print ("Open Error! Try again! " ++ path).

(** Is the entry a file that opens as an image? *)
Definition opens (W : World) (FLAGS : Flags) (filename : string) : bool :=
  let path := path_join (img_root FLAGS) filename in
  negb (isdir W path)
  && match Image_open W path with Some _ => true | None => false end.

(** One row per entry that is a file, opens as an image and is detected. *)
Definition rows_of (W : World) (FLAGS : Flags) (yolo : YOLO)
    (files : list string) : list (string * string) :=
  flat_map
    (fun filename =>
       let path := path_join (img_root FLAGS) filename in
       if isdir W path then []
       else match Image_open W path with
            | None => []
            | Some image =>
                match detect_image W yolo image with
                | Ok (_, out_str) => [(filename, out_str)]
                | Err _ => []
                end
            end)
    files.

(** The events of the loop of [detect_img]: messages only. *)
Definition loop_event (e : event) : bool :=
  match e with
  | Print _ | StdoutWrite _ => true
  | _ => false
  end.

(** *** The rest of the program and what reads its output *)

(** Does the character occur in the string? *)
Fixpoint contains (c : ascii) (s : string) : bool :=
  match s with
  | EmptyString => false
  | String x r => Ascii.eqb x c || contains c r
  end.

Fixpoint count_char (c : ascii) (s : string) : nat :=
  match s with
  | EmptyString => 0
  | String x r => ((if Ascii.eqb x c then 1 else 0) + count_char c r)%nat
  end.

(** [int(s)] on a decimal literal. *)
Definition int_of_str (s : string) : option Z :=
  option_map Z.of_int (NilZero.int_of_string s).

(** The four numbers written for a detection:
    [(left, top, width, height)]. *)
Definition fields (ovf : Z -> Z) (image : Image) (b : box) : Z * Z * Z * Z :=
  let '(top, left_, bottom, right_) := clamp ovf image b in
  (value left_, value top, value (py_sub right_ left_),
   value (py_sub bottom top)).

(** A text file as a Windows editor saves it. *)
Fixpoint to_crlf (s : string) : string :=
  match s with
  | EmptyString => EmptyString
  | String c r =>
      if Ascii.eqb c LF then String CR (String LF (to_crlf r))
      else String c (to_crlf r)
  end.

(** Line 212: the progress text for the entry at index [i]. *)
Definition progress_line (i : nat) (total : Z) : string :=
  String CR ">> i = " ++ str (Z.of_nat i + 1) ++ " / " ++ str total.

(** What one entry of the listing adds to the output of a run in which no
    detection fails. *)
Definition entry_events (W : World) (FLAGS : Flags) (total : Z)
    (ix : nat * string) : list event :=
  let (i, filename) := ix in
  let path := path_join (img_root FLAGS) filename in
  if isdir W path then []
  else match Image_open W path with
       | None => [open_hint path]
       | Some _ => [StdoutWrite (progress_line i total)]
       end.

(** Lines 226-265: the parsed command line and the main program. *)
Record Options : Type :=
  { opt_model_path : string;
    opt_classes_path : string;
    opt_anchors_path : string;
    opt_flags : Flags }.

(** [print(a, b)] writes its arguments separated by a space. *)
Definition print2 (a b : string) : io unit := emit (Print (a ++ " " ++ b)).

Definition main (W : World) (FLAGS : Options) : io unit :=
  (_ <- print2 "model_path " (opt_model_path FLAGS) ;;
   _ <- print2 "classes_path " (opt_classes_path FLAGS) ;;
   _ <- print2 "img_root " (img_root (opt_flags FLAGS)) ;;
   _ <- print2 "summit_dir " (summit_dir (opt_flags FLAGS)) ;;
   yolo <- YOLO_init W (opt_model_path FLAGS) (opt_classes_path FLAGS)
             (opt_anchors_path FLAGS) ;;
   detect_img W (opt_flags FLAGS) yolo)%io.

(** The world [W] with some more text files. *)
Definition with_files (W : World) (files : string -> option string) : World :=
  {| int32_overflow := int32_overflow W;
     expand_home := expand_home W;
     read_text := fun p => match files p with
                           | Some t => Some t
                           | None => read_text W p
                           end;
     float64 := float64 W;
     float := float W;
     load_model := load_model W;
     load_weights := load_weights W;
     pixels := pixels W;
     letterbox_image := letterbox_image W;
     sess_run := sess_run W;
     listdir := listdir W;
     isdir := isdir W;
     Image_open := Image_open W;
     to_csv_ok := to_csv_ok W |}.

Definition more_files (p : string) : option string :=
  if String.eqb p "cls_unix.txt" then Some ("person" ++ nl ++ "traffic light" ++ nl)
  else if String.eqb p "cls_win.txt"
       then Some (to_crlf ("person" ++ nl ++ "traffic light" ++ nl))
  else if String.eqb p "anchors2.txt"
       then Some ("10,14,  23,27" ++ nl ++ "81,82" ++ nl)
  else if String.eqb p "empty.txt" then Some ""
  else None.

Definition demo_world2 : World := with_files demo_world more_files.

(** The world [demo_world] with two more directories, one of them empty,
    and an output directory that cannot be written. *)
Definition demo_world3 : World :=
  {| int32_overflow := int32_overflow demo_world;
     expand_home := expand_home demo_world;
     read_text := read_text demo_world;
     float64 := float64 demo_world;
     float := float demo_world;
     load_model := load_model demo_world;
     load_weights := load_weights demo_world;
     pixels := pixels demo_world;
     letterbox_image := letterbox_image demo_world;
     sess_run := sess_run demo_world;
     listdir := fun d =>
       if String.eqb d "empty" then Ok []
       else if String.eqb d "docs" then Ok ["readme.md"; "sub"]
       else listdir demo_world d;
     isdir := fun p => String.eqb p "docs/sub";
     Image_open := Image_open demo_world;
     to_csv_ok := fun p => negb (startswith p "ro/") |}.

(** The world [demo_world] with a letterbox that accepts two target sizes
    only, (608, 416) and (480, 352). *)
Definition letterbox_world : World :=
  {| int32_overflow := int32_overflow demo_world;
     expand_home := expand_home demo_world;
     read_text := read_text demo_world;
     float64 := float64 demo_world;
     float := float demo_world;
     load_model := load_model demo_world;
     load_weights := load_weights demo_world;
     pixels := pixels demo_world;
     letterbox_image := fun _ t =>
       if ((fst t =? 608) && (snd t =? 416)) || ((fst t =? 480) && (snd t =? 352))
       then Ok tt else Err (CollaboratorError "letterbox_image");
     sess_run := sess_run demo_world;
     listdir := listdir demo_world;
     isdir := isdir demo_world;
     Image_open := Image_open demo_world;
     to_csv_ok := to_csv_ok demo_world |}.

(** A detector with a given input size. *)
Definition sized_yolo (size : option Z * option Z) : YOLO :=
  {| model_path := "yolo.h5"; anchors_path := "anchors.txt";
     classes_path := "cls.txt"; model_image_size := size;
     class_names := ["person"; ""; "car"]; the_model := yolo_body 0 3 |}.

(* ================================================================= *)
(** * Properties *)

(** ** Strings and lists *)

Lemma append_nil_r (s : string) : s ++ "" = s.
Proof. induction s as [|c s IH]; simpl; [reflexivity | now rewrite IH]. Qed.

Lemma append_assoc (a b c : string) : (a ++ b) ++ c = a ++ (b ++ c).
Proof. induction a as [|x a IH]; simpl; [reflexivity | now rewrite IH]. Qed.

Lemma join_cons (sep x : string) (l : list string) :
  join sep (x :: l) = match l with [] => x | _ => x ++ sep ++ join sep l end.
Proof. destruct l; reflexivity. Qed.

Lemma enumerate_from_snoc {A} (l : list A) (x : A) (s : nat) :
  combine (seq s (List.length (l ++ [x])%list)) (l ++ [x])%list
  = (combine (seq s (List.length l)) l ++ [((s + List.length l)%nat, x)])%list.
Proof.
  revert s; induction l as [|a l IH]; intros s; simpl.
  - now rewrite Nat.add_0_r.
  - rewrite IH. now rewrite Nat.add_succ_r.
Qed.

Lemma enumerate_snoc {A} (l : list A) (x : A) :
  enumerate (l ++ [x])%list = (enumerate l ++ [(List.length l, x)])%list.
Proof. unfold enumerate. now rewrite enumerate_from_snoc. Qed.

Lemma firstn_succ_nth {A} (l : list A) (n : nat) (a : A) :
  nth_error l n = Some a -> firstn (S n) l = (firstn n l ++ [a])%list.
Proof.
  revert n; induction l as [|x l IH]; intros [|n] H; simpl in *; try discriminate.
  - now inversion H.
  - now rewrite (IH n H).
Qed.

Lemma firstn_zero_iff_nil {A} (l : list A) (n : nat) :
  (n <= List.length l)%nat -> (firstn n l = [] <-> n = 0%nat).
Proof.
  destruct n, l; simpl; intros H; split; intros E;
    try reflexivity; try discriminate; lia.
Qed.

(* ================================================================= *)
(** ** The result encoder *)

Section EncoderFacts.

Variable ovf : Z -> Z.
Variable image : Image.

Let enc := box_str ovf image.

(** The loop over the first [length cs] detections, last one first. *)
Lemma convert_loop (boxes : list box) (scores : list Q) (cs : list Z) :
  (List.length cs <= List.length boxes)%nat ->
  (List.length cs <= List.length scores)%nat ->
  forall acc,
    for_each (convert_body ovf boxes scores image) (rev (enumerate cs)) acc
    = Ok (acc ++ join ";" (map enc (rev (firstn (List.length cs) boxes)))).
Proof.
  induction cs as [|c cs IH] using rev_ind; intros Hb Hs acc.
  - simpl. now rewrite append_nil_r.
  - rewrite enumerate_snoc, rev_app_distr. simpl rev. simpl app.
    rewrite length_app in *. simpl in Hb, Hs.
    replace (List.length cs + List.length [c])%nat with (S (List.length cs))
      by (simpl; lia).
    set (n := List.length cs) in *.
    destruct (nth_error boxes n) as [b|] eqn:Eb;
      [|apply nth_error_None in Eb; lia].
    destruct (nth_error scores n) as [sc|] eqn:Es;
      [|apply nth_error_None in Es; lia].
    cbn [for_each convert_body]. unfold getitem. rewrite Eb, Es.
    cbn [rbind]. rewrite IH by lia.
    rewrite (firstn_succ_nth _ _ _ Eb), rev_app_distr. simpl rev. simpl app.
    cbn [map]. rewrite join_cons. fold enc.
    assert (Hz := firstn_zero_iff_nil boxes n ltac:(lia)).
    destruct n as [|n].
    + simpl. now rewrite !append_nil_r.
    + destruct (firstn (S n) boxes) as [|x l] eqn:Ef.
      * exfalso. destruct Hz as [Hz _]. specialize (Hz eq_refl). discriminate.
      * replace (0 <? S n)%nat with true by reflexivity.
        destruct (rev (x :: l)) as [|y l'] eqn:Er.
        { apply (f_equal (@List.length _)) in Er.
          rewrite length_rev in Er. discriminate. }
        cbn [map]. now rewrite !append_assoc.
Qed.

Lemma convert_result_to_str_join (boxes : list box) (scores : list Q)
    (classes : list Z) :
  List.length boxes = List.length classes ->
  List.length scores = List.length classes ->
  convert_result_to_str ovf boxes scores classes image
  = Ok (join ";" (map enc (rev boxes))).
Proof.
  intros Hb Hs. unfold convert_result_to_str.
  rewrite convert_loop by lia. rewrite <- Hb, firstn_all. reflexivity.
Qed.

End EncoderFacts.

(** C1. The encoder writes, for every detection, the four fields left, top,
    width and height joined by an underscore, and joins the detections with
    a semicolon; no detection gives the empty string, and the box (top=10,
    left=5, bottom=50, right=45) on a 100x100 image gives "5_10_40_40". *)
Theorem convert_result_to_str_format (ovf : Z -> Z) :
  (forall boxes scores classes image,
      List.length boxes = List.length classes ->
      List.length scores = List.length classes ->
      convert_result_to_str ovf boxes scores classes image
      = Ok (join ";"
              (map (fun b =>
                      let '(top, left_, bottom, right_) := clamp ovf image b in
                      str_num left_ ++ "_" ++ str_num top ++ "_"
                      ++ str_num (py_sub right_ left_) ++ "_"
                      ++ str_num (py_sub bottom top))
                   (rev boxes))))
  /\ (forall boxes scores image,
         convert_result_to_str ovf boxes scores [] image = Ok "")
  /\ (forall score c,
         convert_result_to_str ovf [(10 # 1, 5 # 1, 50 # 1, 45 # 1)%Q] [score] [c]
           {| width := 100; height := 100 |} = Ok "5_10_40_40").
Proof.
  split; [|split].
  - intros boxes scores classes image Hb Hs.
    rewrite convert_result_to_str_join by assumption. reflexivity.
  - reflexivity.
  - intros score c. reflexivity.
Qed.

Lemma convert_result_to_str_format_witness :
  convert_result_to_str (fun _ => int32_min)
    [(10 # 1, 5 # 1, 50 # 1, 45 # 1)%Q; (-7 # 2, -3 # 1, 501 # 2, 1000 # 1)%Q]
    [(9 # 10)%Q; (1 # 2)%Q] [0; 3] {| width := 100; height := 100 |}
  = Ok "0_0_100_100;5_10_40_40".
Proof.
  rewrite (proj1 (convert_result_to_str_format (fun _ => int32_min)))
    by reflexivity.
  reflexivity.
Defined.

(** C3. The encoder emits the detections in reverse of the order in which
    the detector returned them: the piece at position [k] of the output is
    the encoding of the detection at index [n - 1 - k], so that two
    detections [A; B] give "B-encoding;A-encoding". *)
Theorem convert_result_to_str_reversed (ovf : Z -> Z) :
  (forall boxes scores classes image,
      List.length boxes = List.length classes ->
      List.length scores = List.length classes ->
      exists pieces,
        convert_result_to_str ovf boxes scores classes image
        = Ok (join ";" pieces)
        /\ List.length pieces = List.length boxes
        /\ forall k, (k < List.length boxes)%nat ->
             nth_error pieces k
             = option_map (box_str ovf image)
                 (nth_error boxes (List.length boxes - 1 - k)))
  /\ (forall A B sA sB cA cB image,
         convert_result_to_str ovf [A; B] [sA; sB] [cA; cB] image
         = Ok (box_str ovf image B ++ ";" ++ box_str ovf image A)).
Proof.
  split.
  - intros boxes scores classes image Hb Hs.
    exists (map (box_str ovf image) (rev boxes)). split; [|split].
    + now apply convert_result_to_str_join.
    + now rewrite length_map, length_rev.
    + intros k Hk. rewrite nth_error_map, nth_error_rev.
      apply Nat.ltb_lt in Hk. rewrite Hk.
      now replace (List.length boxes - S k)%nat
        with (List.length boxes - 1 - k)%nat by lia.
  - intros. now rewrite (convert_result_to_str_join ovf image [A; B] [sA; sB]).
Qed.

Lemma convert_result_to_str_reversed_witness :
  exists pieces,
    convert_result_to_str (fun _ => int32_min)
      [(0 # 1, 0 # 1, 8 # 1, 8 # 1)%Q; (1 # 1, 2 # 1, 9 # 1, 7 # 1)%Q;
       (3 # 1, 3 # 1, 4 # 1, 4 # 1)%Q]
      [(1 # 2)%Q; (1 # 2)%Q; (1 # 2)%Q] [0; 0; 1]
      {| width := 10; height := 10 |}
    = Ok (join ";" pieces)
    /\ nth_error pieces 0 = Some "3_3_1_1"
    /\ nth_error pieces 2 = Some "0_0_8_8".
Proof.
  destruct (proj1 (convert_result_to_str_reversed (fun _ => int32_min))
              [(0 # 1, 0 # 1, 8 # 1, 8 # 1)%Q; (1 # 1, 2 # 1, 9 # 1, 7 # 1)%Q;
               (3 # 1, 3 # 1, 4 # 1, 4 # 1)%Q]
              [(1 # 2)%Q; (1 # 2)%Q; (1 # 2)%Q] [0; 0; 1]
              {| width := 10; height := 10 |} eq_refl eq_refl)
    as (pieces & E & _ & N).
  exists pieces. split; [exact E|]. split.
  - rewrite (N 0%nat) by (simpl; lia). reflexivity.
  - rewrite (N 2%nat) by (simpl; lia). reflexivity.
Defined.

(** ** Rounding and clamping *)

Lemma np_round_nearest (x : Q) :
  (inject_Z (np_round x) - x <= 1 # 2 /\ x - inject_Z (np_round x) <= 1 # 2)%Q.
Proof.
  unfold np_round.
  pose proof (Qfloor_le x) as Hlo. pose proof (Qlt_floor x) as Hhi.
  rewrite inject_Z_plus in Hhi. change (inject_Z 1) with 1%Q in Hhi.
  destruct (Qcompare_spec (x - inject_Z (Qfloor x)) (1 # 2)) as [E|L|G].
  - destruct (Z.even (Qfloor x)); rewrite ?inject_Z_plus;
      change (inject_Z 1) with 1%Q; lra.
  - lra.
  - rewrite inject_Z_plus. change (inject_Z 1) with 1%Q. lra.
Qed.

Lemma np_round_ge_floor (x : Q) : Qfloor x <= np_round x.
Proof.
  unfold np_round.
  destruct (x - inject_Z (Qfloor x) ?= 1 # 2)%Q; [destruct (Z.even _)| |]; lia.
Qed.

Lemma np_round_above (x : Q) (n : Z) : (inject_Z n <= x)%Q -> n <= np_round x.
Proof.
  intros H. apply Qfloor_resp_le in H. rewrite Qfloor_Z in H.
  pose proof (np_round_ge_floor x). lia.
Qed.

Lemma np_round_integer (x : Q) (n : Z) : (x == inject_Z n)%Q -> np_round x = n.
Proof.
  intros E. unfold np_round.
  rewrite (Qfloor_comp _ _ E), Qfloor_Z.
  destruct (Qcompare_spec (x - inject_Z n) (1 # 2)); [lra|reflexivity|lra].
Qed.

Lemma astype_int32_fits (ovf : Z -> Z) (z : Z) :
  fits_int32 z = true -> value (astype_int32 ovf z) = z.
Proof. intros H. unfold astype_int32. now rewrite H. Qed.

Lemma value_py_max (a b : num) : value (py_max a b) = Z.max (value a) (value b).
Proof. unfold py_max. destruct (Z.ltb_spec (value a) (value b)); lia. Qed.

Lemma value_py_min (a b : num) : value (py_min a b) = Z.min (value a) (value b).
Proof. unfold py_min. destruct (Z.ltb_spec (value b) (value a)); lia. Qed.

(** C4, as the code has it. Every coordinate is rounded to a nearest
    integer and converted to a 32-bit integer before it is clamped. For
    every box, top and left end up at least 0 and bottom and right at most
    the image height and width. For a coordinate whose rounded value is a
    32-bit integer, the clamped value is the maximum of 0 and the rounded
    value (top, left) or the minimum of the image size and the rounded
    value (bottom, right): a left of -3 becomes 0, and a right beyond the
    image width becomes the image width when its rounded value is a 32-bit
    integer. *)
Theorem clamp_rounds_then_clamps (ovf : Z -> Z) (image : Image)
    (top left_ bottom right_ : Q) :
  let '(t, l, b, r) := clamp ovf image (top, left_, bottom, right_) in
  (forall x, In x [top; left_; bottom; right_] ->
     (inject_Z (np_round x) - x <= 1 # 2
      /\ x - inject_Z (np_round x) <= 1 # 2)%Q)
  /\ (0 <= value t /\ 0 <= value l
      /\ value b <= height image /\ value r <= width image)
  /\ (fits_int32 (np_round top) = true ->
      value t = Z.max 0 (np_round top))
  /\ (fits_int32 (np_round left_) = true ->
      value l = Z.max 0 (np_round left_))
  /\ (fits_int32 (np_round bottom) = true ->
      value b = Z.min (height image) (np_round bottom))
  /\ (fits_int32 (np_round right_) = true ->
      value r = Z.min (width image) (np_round right_))
  /\ ((left_ == -3 # 1)%Q -> value l = 0)
  /\ (fits_int32 (np_round right_) = true ->
      (inject_Z (width image) < right_)%Q -> value r = width image).
Proof.
  unfold clamp. cbn [size fst snd].
  rewrite !value_py_max, !value_py_min. cbn [value].
  split; [|split; [|repeat split]].
  - intros x _. apply np_round_nearest.
  - lia.
  - intros H. rewrite astype_int32_fits by exact H. reflexivity.
  - intros H. rewrite astype_int32_fits by exact H. reflexivity.
  - intros H. rewrite astype_int32_fits by exact H. reflexivity.
  - intros H. rewrite astype_int32_fits by exact H. reflexivity.
  - intros E. rewrite (np_round_integer left_ (-3)) by exact E. reflexivity.
  - intros H G. rewrite astype_int32_fits by exact H.
    apply Qlt_le_weak in G. apply np_round_above in G. lia.
Qed.

Lemma clamp_rounds_then_clamps_witness :
  let '(t, l, b, r) :=
    clamp (fun _ => int32_min) {| width := 100; height := 80 |}
      (-5 # 2, -3 # 1, 161 # 2, 2001 # 10)%Q in
  (value t, value l, value b, value r) = (0, 0, 80, 100).
Proof.
  pose proof (clamp_rounds_then_clamps (fun _ => int32_min)
                {| width := 100; height := 80 |}
                (-5 # 2) (-3 # 1) (161 # 2) (2001 # 10)) as H.
  destruct (clamp _ _ _) as [[[t l] b] r].
  destruct H as (_ & _ & Et & El & Eb & _ & _ & Er).
  rewrite (Et eq_refl), (El eq_refl), (Eb eq_refl), (Er eq_refl);
    reflexivity.
Defined.

(** A right coordinate beyond the 32-bit range: where the conversion of an
    out-of-range float yields the smallest 32-bit integer, as on x86-64, a
    right of 3000000000 on an image 100 wide does not become 100, and the
    width that is written is the wrapped difference. *)
Lemma clamp_right_beyond_int32 :
  (inject_Z (width {| width := 100; height := 100 |}) < 3000000000 # 1)%Q
  /\ (let '(t, l, b, r) :=
        clamp (fun _ => int32_min) {| width := 100; height := 100 |}
          (1 # 1, 2 # 1, 3 # 1, 3000000000 # 1)%Q in
      value r = -2147483648 /\ value r <> 100)
  /\ convert_result_to_str (fun _ => int32_min)
       [(1 # 1, 2 # 1, 3 # 1, 3000000000 # 1)%Q] [(1 # 2)%Q] [0]
       {| width := 100; height := 100 |} = Ok "2_1_2147483646_2"
  /\ ~ (forall (ovf : Z -> Z) (image : Image) (top left_ bottom right_ : Q),
          (inject_Z (width image) < right_)%Q ->
          let '(t, l, b, r) := clamp ovf image (top, left_, bottom, right_) in
          value r = width image).
Proof.
  split; [reflexivity|]. split; [split; [reflexivity | discriminate]|].
  split; [reflexivity|].
  intros H.
  specialize (H (fun _ => int32_min) {| width := 100; height := 100 |}
                (1 # 1) (2 # 1) (3 # 1) (3000000000 # 1) eq_refl).
  discriminate H.
Qed.

(* ================================================================= *)
(** ** The configuration loader *)

Lemma readlines_nil (s : string) : readlines s = [] -> s = "".
Proof.
  destruct s as [|c r]; [reflexivity|]. simpl.
  destruct (Ascii.eqb c LF); [discriminate|].
  destruct (readlines r); discriminate.
Qed.

Lemma concat_empty_cons (x : string) (l : list string) :
  String.concat "" (x :: l) = x ++ String.concat "" l.
Proof. destruct l; simpl; [now rewrite append_nil_r | reflexivity]. Qed.

(** The lines are a partition of the text. *)
Lemma readlines_concat (s : string) : String.concat "" (readlines s) = s.
Proof.
  induction s as [|c r IH]; [reflexivity|]. cbn [readlines].
  destruct (Ascii.eqb_spec c LF) as [->|N].
  - rewrite concat_empty_cons, IH. reflexivity.
  - destruct (readlines r) as [|h t] eqn:E.
    + now rewrite (readlines_nil r E).
    + rewrite concat_empty_cons in *. simpl. now rewrite IH.
Qed.

(** One line per terminator, and one more for an unterminated tail. *)
Lemma readlines_length (s : string) :
  List.length (readlines s)
  = (count_LF s + if unterminated s then 1 else 0)%nat.
Proof.
  induction s as [|c r IH]; [reflexivity|].
  cbn [readlines count_LF].
  destruct (Ascii.eqb c LF) eqn:Ec.
  - cbn [List.length]. rewrite IH.
    destruct r; [simpl; now rewrite Ec | reflexivity].
  - destruct (readlines r) as [|h t] eqn:E.
    + rewrite (readlines_nil r E). simpl. now rewrite Ec.
    + cbn [List.length] in *. rewrite IH.
      destruct r; [discriminate | reflexivity].
Qed.

Lemma filter_all {A} (p : A -> bool) (l : list A) :
  Forall (fun x => p x = true) l -> filter p l = l.
Proof.
  induction 1 as [|x l Hx _ IH]; simpl; [reflexivity|]. now rewrite Hx, IH.
Qed.

(** C2, as the code has it. For every readable classes file, the class
    list has exactly one entry per line of the file, blank or not: the
    entry at index [i] is line [i] trimmed (the empty string for a blank
    line), in file order, with duplicates retained. The entries that are
    not empty are the non-empty trimmed lines, and a file without blank
    lines gives exactly one entry per non-empty trimmed line. *)
Theorem _get_class_one_entry_per_line (W : World) (path text : string) :
  read_text W (expanduser W path) = Some text ->
  let lines := readlines (universal_newlines text) in
  exists names,
    _get_class W path = Ok names
    /\ String.concat "" lines = universal_newlines text
    /\ List.length names = List.length lines
    /\ List.length names
       = (count_LF (universal_newlines text)
          + if unterminated (universal_newlines text) then 1 else 0)%nat
    /\ (forall i, nth_error names i = option_map strip (nth_error lines i))
    /\ filter (fun n => negb (String.eqb n "")) names
       = nonempty_trimmed_lines (universal_newlines text)
    /\ (Forall (fun l => strip l <> "") lines ->
        names = nonempty_trimmed_lines (universal_newlines text)).
Proof.
  intros Hr lines. exists (map strip lines).
  unfold _get_class, open_text. rewrite Hr. cbn [rbind].
  repeat split.
  - apply readlines_concat.
  - apply length_map.
  - rewrite length_map. apply readlines_length.
  - intros i. apply nth_error_map.
  - intros Hall. unfold nonempty_trimmed_lines. fold lines.
    symmetry. apply filter_all. apply Forall_map.
    eapply Forall_impl; [|exact Hall]. intros l Hl. simpl in Hl |- *.
    destruct (String.eqb_spec (strip l) ""); [contradiction | reflexivity].
Qed.

Lemma _get_class_one_entry_per_line_witness :
  exists names,
    _get_class demo_world "cls.txt" = Ok names
    /\ List.length names = 3%nat
    /\ nth_error names 1 = Some "".
Proof.
  destruct (_get_class_one_entry_per_line demo_world "cls.txt"
              ("person" ++ nl ++ nl ++ " car " ++ nl) eq_refl)
    as (names & E & _ & _ & L & N & _).
  exists names. split; [exact E|]. split.
  - rewrite L. reflexivity.
  - rewrite N. reflexivity.
Defined.

(** A classes file with a blank line: the code returns an entry for it,
    so the class list is not the list of the non-empty trimmed lines. *)
Lemma _get_class_blank_line :
  read_text demo_world (expanduser demo_world "cls.txt")
  = Some ("person" ++ nl ++ nl ++ " car " ++ nl)
  /\ _get_class demo_world "cls.txt" = Ok ["person"; ""; "car"]
  /\ nonempty_trimmed_lines
       (universal_newlines ("person" ++ nl ++ nl ++ " car " ++ nl))
     = ["person"; "car"]
  /\ _get_class demo_world "cls.txt"
     <> Ok (nonempty_trimmed_lines
              (universal_newlines ("person" ++ nl ++ nl ++ " car " ++ nl))).
Proof.
  repeat split. discriminate.
Qed.

(** *** Anchors *)

Lemma py_float_some (W : World) (t : string) (v : float64 W) :
  float W t = Some v -> py_float W t = Ok v.
Proof. intros E. unfold py_float. now rewrite E. Qed.

Lemma py_float_none (W : World) (t : string) :
  float W t = None -> py_float W t = Err ValueError.
Proof. intros E. unfold py_float. now rewrite E. Qed.

Lemma list_comp_py_float_ok (W : World) (tokens : list string)
    (vals : list (float64 W)) :
  map (float W) tokens = map Some vals ->
  list_comp (py_float W) tokens = Ok vals.
Proof.
  revert vals; induction tokens as [|t ts IH]; intros [|v vs] H;
    simpl in H; try discriminate; [reflexivity|].
  injection H as Hv Hvs. cbn [list_comp].
  rewrite (py_float_some W t v Hv). cbn [rbind]. now rewrite (IH vs Hvs).
Qed.

Lemma list_comp_py_float_cases (W : World) (tokens : list string) :
  (exists vals, list_comp (py_float W) tokens = Ok vals
                /\ map (float W) tokens = map Some vals)
  \/ (list_comp (py_float W) tokens = Err ValueError
      /\ exists t, In t tokens /\ float W t = None).
Proof.
  induction tokens as [|t ts IH].
  - left. now exists [].
  - cbn [list_comp].
    destruct (float W t) as [v|] eqn:Ev.
    + rewrite (py_float_some W t v Ev). cbn [rbind].
      destruct IH as [(vals & E & M) | (E & u & Hu & Nu)].
      * left. exists (v :: vals). rewrite E. simpl. now rewrite Ev, M.
      * right. rewrite E. split; [reflexivity|]. exists u. simpl. auto.
    + rewrite (py_float_none W t Ev).
      right. split; [reflexivity|]. exists t. simpl. auto.
Qed.

(** Induction two elements at a time. *)
Lemma list_pair_ind {A} (P : list A -> Prop) :
  P [] -> (forall a, P [a]) -> (forall a b l, P l -> P (a :: b :: l)) ->
  forall l, P l.
Proof.
  intros H0 H1 H2 l.
  enough (P l /\ forall a, P (a :: l)) by tauto.
  induction l as [|x l [IHl IHx]]; split; auto.
Qed.

Lemma reshape2_even {A} (l : list A) :
  Nat.even (List.length l) = true ->
  exists ps, reshape2 l = Ok ps
             /\ List.length ps = (List.length l / 2)%nat
             /\ flat_map (fun p => [fst p; snd p]) ps = l.
Proof.
  induction l as [| a | a b l IH] using list_pair_ind; intros E.
  - now exists [].
  - discriminate.
  - cbn [List.length] in E. change (Nat.even (List.length l) = true) in E.
    destruct (IH E) as (ps & R & L & F).
    exists ((a, b) :: ps). cbn [reshape2]. rewrite R. cbn [rbind].
    repeat split.
    + cbn [List.length]. rewrite L.
      change (S (S (List.length l))) with (2 + List.length l)%nat.
      replace (2 + List.length l)%nat with (List.length l + 1 * 2)%nat by lia.
      rewrite Nat.div_add by lia. lia.
    + simpl. now rewrite F.
Qed.

Lemma reshape2_odd {A} (l : list A) :
  Nat.odd (List.length l) = true -> reshape2 l = Err ValueError.
Proof.
  induction l as [| a | a b l IH] using list_pair_ind; intros E.
  - discriminate.
  - reflexivity.
  - cbn [List.length] in E. change (Nat.odd (List.length l) = true) in E.
    cbn [reshape2]. now rewrite (IH E).
Qed.

(** C5. When the first line of the anchors file splits at the commas into
    an even count of numbers, the loader returns count/2 pairs that read,
    in order, the numbers of the file; when the count is odd or a token is
    not a number, the loader fails (with [ValueError]). *)
Theorem _get_anchors_pairs (W : World) (path text : string) :
  read_text W (expanduser W path) = Some text ->
  let tokens := split "," (readline (universal_newlines text)) in
  (forall vals,
      map (float W) tokens = map Some vals ->
      Nat.even (List.length tokens) = true ->
      exists pairs,
        _get_anchors W path = Ok pairs
        /\ List.length pairs = (List.length tokens / 2)%nat
        /\ flat_map (fun p => [fst p; snd p]) pairs = vals)
  /\ (Nat.odd (List.length tokens) = true
      \/ (exists t, In t tokens /\ float W t = None) ->
      _get_anchors W path = Err ValueError).
Proof.
  intros Hr tokens. unfold _get_anchors, open_text. rewrite Hr. cbn [rbind].
  fold tokens. split.
  - intros vals Hv He.
    rewrite (list_comp_py_float_ok W tokens vals Hv). cbn [rbind].
    assert (Hlen : List.length vals = List.length tokens).
    { apply (f_equal (@List.length _)) in Hv. now rewrite !length_map in Hv. }
    rewrite <- Hlen in *. now apply reshape2_even.
  - intros Hbad.
    destruct (list_comp_py_float_cases W tokens)
      as [(vals & E & M) | (E & _)]; rewrite E; [|reflexivity].
    cbn [rbind].
    assert (Hlen : List.length vals = List.length tokens).
    { apply (f_equal (@List.length _)) in M. now rewrite !length_map in M. }
    destruct Hbad as [Hodd | (t & Ht & Nt)].
    + apply reshape2_odd. now rewrite Hlen.
    + exfalso. apply (in_map (float W)) in Ht. rewrite M, Nt in Ht.
      apply in_map_iff in Ht. destruct Ht as (v & Hv & _). discriminate.
Qed.

Lemma _get_anchors_pairs_witness :
  (exists pairs,
      _get_anchors demo_world "anchors.txt" = Ok pairs
      /\ List.length pairs = 2%nat
      /\ flat_map (fun p => [fst p; snd p]) pairs
         = [inject_Z 10; inject_Z 14; inject_Z 23; inject_Z 27])
  /\ _get_anchors demo_world "odd.txt" = Err ValueError
  /\ _get_anchors demo_world "nan.txt" = Err ValueError.
Proof.
  split; [|split].
  - apply (proj1 (_get_anchors_pairs demo_world "anchors.txt"
                    ("10,14,  23,27" ++ nl) eq_refl)
             [inject_Z 10; inject_Z 14; inject_Z 23; inject_Z 27]);
      reflexivity.
  - apply (proj2 (_get_anchors_pairs demo_world "odd.txt" "10,14,23" eq_refl)).
    left. reflexivity.
  - apply (proj2 (_get_anchors_pairs demo_world "nan.txt" "10,x" eq_refl)).
    right. exists "x". split; [simpl; auto | reflexivity].
Defined.

(* ================================================================= *)
(** ** The model provider *)

Lemma expanduser_plain (W : World) (path : string) :
  startswith path "~" = false -> expanduser W path = path.
Proof. intros H. unfold expanduser. now rewrite H. Qed.

(** C6. When the direct load fails, the model that is built and that
    receives the weights is the tiny variant, with half of the anchors per
    head, exactly when there are 6 anchors; for every other count it is the
    full variant with a third of the anchors per head. *)
Theorem generate_fallback_variant (W : World) (self_model_path : string)
    (anchors : list (float64 W * float64 W)) (class_names : list string) :
  endswith (expanduser W self_model_path) ".h5" = true ->
  load_model W (expanduser W self_model_path) = None ->
  let n := Z.of_nat (List.length anchors) in
  let c := Z.of_nat (List.length class_names) in
  exists m,
    (exists rest,
        fst (generate W self_model_path anchors class_names)
        = [LoadModel (expanduser W self_model_path);
           LoadWeights m self_model_path] ++ rest)%list
    /\ (load_weights W m self_model_path = true ->
        snd (generate W self_model_path anchors class_names) = Ok m)
    /\ (n = 6 -> m = tiny_yolo_body 3 c)
    /\ (n <> 6 -> m = yolo_body (n / 3) c)
    /\ ((exists k, m = tiny_yolo_body k c /\ k = n / 2) <-> n = 6).
Proof.
  intros Hh5 Hload n c. exists (fallback_body n c).
  unfold generate. rewrite Hh5, Hload. fold n c.
  split; [|split; [|split; [|split]]].
  - destruct (load_weights W (fallback_body n c) self_model_path);
      eexists; reflexivity.
  - intros Hw. rewrite Hw. reflexivity.
  - intros E. unfold fallback_body. now rewrite E.
  - intros N. unfold fallback_body.
    destruct (Z.eqb_spec n 6); [contradiction | reflexivity].
  - unfold fallback_body. destruct (Z.eqb_spec n 6) as [E|N]; split.
    + intros _. exact E.
    + intros _. now exists (n / 2).
    + intros (k & Hk & _). discriminate.
    + contradiction.
Qed.

Lemma generate_fallback_variant_witness :
  exists m,
    snd (generate demo_world "tiny.h5"
           [(1, 2); (3, 4); (5, 6); (7, 8); (9, 10); (11, 12)]%Q ["a"; "b"])
    = Ok m
    /\ m = tiny_yolo_body 3 2.
Proof.
  destruct (generate_fallback_variant demo_world "tiny.h5"
              [(1, 2); (3, 4); (5, 6); (7, 8); (9, 10); (11, 12)]%Q ["a"; "b"]
              eq_refl eq_refl)
    as (m & _ & Hs & H6 & _).
  exists m. split; [apply Hs; rewrite (H6 eq_refl); reflexivity|].
  apply H6. reflexivity.
Defined.

(** C10. A model path that does not end in ".h5" fails with an assertion
    error before any load is attempted, and so does the construction of the
    detector once the classes and the anchors are read. The suffix is
    tested on the path as [generate] resolves it, which is the given path
    unless it starts with a tilde. *)
Theorem generate_requires_h5 (W : World) (self_model_path : string)
    (anchors : list (float64 W * float64 W)) (class_names : list string) :
  endswith (expanduser W self_model_path) ".h5" = false
  \/ (startswith self_model_path "~" = false
      /\ endswith self_model_path ".h5" = false) ->
  generate W self_model_path anchors class_names
  = ([], Err (AssertionError h5_message))
  /\ (forall classes_path anchors_path,
         _get_class W classes_path = Ok class_names ->
         _get_anchors W anchors_path = Ok anchors ->
         YOLO_init W self_model_path classes_path anchors_path
         = ([], Err (AssertionError h5_message))).
Proof.
  intros H.
  assert (H' : endswith (expanduser W self_model_path) ".h5" = false).
  { destruct H as [H|[Hp H]]; [exact H|]. now rewrite (expanduser_plain W _ Hp). }
  assert (G : generate W self_model_path anchors class_names
              = ([], Err (AssertionError h5_message))).
  { unfold generate. rewrite H'. reflexivity. }
  split; [exact G|].
  intros cp ap Hc Ha. unfold YOLO_init. rewrite Hc, Ha.
  cbn [lift io_bind]. rewrite G. reflexivity.
Qed.

Lemma generate_requires_h5_witness :
  generate demo_world "model_data/yolo.weights" [] []
  = ([], Err (AssertionError h5_message))
  /\ YOLO_init demo_world "~/yolo.pb" "cls.txt" "anchors.txt"
     = ([], Err (AssertionError h5_message)).
Proof.
  split.
  - apply (generate_requires_h5 demo_world "model_data/yolo.weights" [] []).
    right. split; reflexivity.
  - apply (proj2 (generate_requires_h5 demo_world "~/yolo.pb"
                    [(inject_Z 10, inject_Z 14); (inject_Z 23, inject_Z 27)]
                    ["person"; ""; "car"] (or_introl eq_refl)));
      reflexivity.
Defined.

(* ================================================================= *)
(** ** Preprocessing of [detect_image] *)

(** The size computed on lines 94-100. *)
Lemma boxed_image_size_cases (image : Image) :
  (forall h w,
      h mod 32 = 0 -> w mod 32 = 0 ->
      boxed_image_size (Some h, Some w) image = Ok (w, h))
  /\ (forall h w,
         h mod 32 <> 0 \/ w mod 32 <> 0 ->
         boxed_image_size (Some h, Some w) image
         = Err (AssertionError size_message)
         /\ forall W self,
             model_image_size self = (Some h, Some w) ->
             detect_image W self image = Err (AssertionError size_message))
  /\ (exists tw th,
         boxed_image_size (None, None) image = Ok (tw, th)
         /\ tw = 32 * (width image / 32) /\ th = 32 * (height image / 32)
         /\ tw <= width image < tw + 32
         /\ th <= height image < th + 32).
Proof.
  split; [|split].
  - intros h w Hh Hw. unfold boxed_image_size, py_mod. cbn [rbind].
    rewrite Hh, Hw. reflexivity.
  - intros h w Hbad.
    assert (E : boxed_image_size (Some h, Some w) image
                = Err (AssertionError size_message)).
    { unfold boxed_image_size, py_mod. cbn [rbind].
      destruct (Z.eqb_spec (h mod 32) 0) as [Eh|Nh]; [|reflexivity].
      cbn [py_assert rbind].
      destruct (Z.eqb_spec (w mod 32) 0) as [Ew|Nw]; [|reflexivity].
      destruct Hbad; contradiction. }
    split; [exact E|].
    intros W self Hs. unfold detect_image. rewrite Hs, E. reflexivity.
  - exists (width image - width image mod 32),
      (height image - height image mod 32).
    split; [reflexivity|].
    pose proof (Z.div_mod (width image) 32 ltac:(lia)).
    pose proof (Z.div_mod (height image) 32 ltac:(lia)).
    pose proof (Z.mod_pos_bound (width image) 32 ltac:(lia)).
    pose proof (Z.mod_pos_bound (height image) 32 ltac:(lia)).
    lia.
Qed.

(** C9. In [detect_image], a configured input size (h, w) must be a
    multiple of 32 in both dimensions: the image is then letterboxed to
    exactly (w, h), and otherwise [detect_image] fails with the assertion
    error whatever the collaborators do, without letterboxing to a rounded
    size. Without a configured size the image is letterboxed to its own
    size with each dimension floored to a multiple of 32. *)
Theorem detect_image_letterbox_target (W : World) (self : YOLO)
    (image : Image) :
  (forall h w,
      model_image_size self = (Some h, Some w) ->
      (h mod 32 = 0 -> w mod 32 = 0 ->
       detect_image W self image
       = (boxed_image <- letterbox_image W image (w, h) ;;
          '(out_boxes, out_scores, out_classes) <-
             sess_run W boxed_image (height image, width image) ;;
          out_str <- convert_result_to_str (int32_overflow W)
                       out_boxes out_scores out_classes image ;;
          Ok (image, out_str))%py)
      /\ (h mod 32 <> 0 \/ w mod 32 <> 0 ->
          detect_image W self image = Err (AssertionError size_message)))
  /\ (model_image_size self = (None, None) ->
      let tw := 32 * (width image / 32) in
      let th := 32 * (height image / 32) in
      detect_image W self image
      = (boxed_image <- letterbox_image W image (tw, th) ;;
         '(out_boxes, out_scores, out_classes) <-
            sess_run W boxed_image (height image, width image) ;;
         out_str <- convert_result_to_str (int32_overflow W)
                      out_boxes out_scores out_classes image ;;
         Ok (image, out_str))%py
      /\ tw mod 32 = 0 /\ th mod 32 = 0
      /\ tw <= width image < tw + 32
      /\ th <= height image < th + 32).
Proof.
  pose proof (boxed_image_size_cases image) as (Hfix & Hbad & Hfree).
  split.
  - intros h w Hs. split.
    + intros Hh Hw. unfold detect_image.
      rewrite Hs, (Hfix h w Hh Hw). reflexivity.
    + intros Hne. now apply (proj2 (Hbad h w Hne) W self).
  - intros Hs tw th. destruct Hfree as (tw' & th' & E & Etw & Eth & Bw & Bh).
    assert (tw' = tw) by (subst tw; exact Etw).
    assert (th' = th) by (subst th; exact Eth).
    subst tw' th'.
    split; [unfold detect_image; rewrite Hs, E; reflexivity|].
    split; [subst tw; rewrite Z.mul_comm; apply Z.mod_mul; lia|].
    split; [subst th; rewrite Z.mul_comm; apply Z.mod_mul; lia|].
    split; assumption.
Qed.

Lemma detect_image_letterbox_target_witness :
  detect_image letterbox_world (sized_yolo (Some 416, Some 608))
    {| width := 500; height := 375 |}
  = Ok ({| width := 500; height := 375 |}, "5_10_40_40")
  /\ detect_image letterbox_world (sized_yolo (None, None))
       {| width := 500; height := 375 |}
     = Ok ({| width := 500; height := 375 |}, "5_10_40_40")
  /\ detect_image letterbox_world (sized_yolo (Some 416, Some 400))
       {| width := 500; height := 375 |}
     = Err (AssertionError size_message)
  /\ detect_image letterbox_world (sized_yolo (Some 416, Some 416))
       {| width := 500; height := 375 |}
     = Err (CollaboratorError "letterbox_image").
Proof.
  split; [|split; [|split]].
  - rewrite (proj1 (proj1 (detect_image_letterbox_target letterbox_world
                             (sized_yolo (Some 416, Some 608))
                             {| width := 500; height := 375 |})
                      416 608 eq_refl) eq_refl eq_refl).
    reflexivity.
  - rewrite (proj1 (proj2 (detect_image_letterbox_target letterbox_world
                             (sized_yolo (None, None))
                             {| width := 500; height := 375 |}) eq_refl)).
    reflexivity.
  - apply (proj2 (proj1 (detect_image_letterbox_target letterbox_world
                           (sized_yolo (Some 416, Some 400))
                           {| width := 500; height := 375 |})
                    416 400 eq_refl)).
    right. discriminate.
  - rewrite (proj1 (proj1 (detect_image_letterbox_target letterbox_world
                             (sized_yolo (Some 416, Some 416))
                             {| width := 500; height := 375 |})
                      416 416 eq_refl) eq_refl eq_refl).
    reflexivity.
Defined.

(* ================================================================= *)
(** ** The batch runner *)

Lemma io_bind_assoc {A B C} (m : io A) (f : A -> io B) (g : B -> io C) :
  io_bind (io_bind m f) g = io_bind m (fun a => io_bind (f a) g).
Proof.
  destruct m as [t [a|e]]; simpl; [|reflexivity].
  destruct (f a) as [t' [b|e']]; simpl; [|reflexivity].
  destruct (g b) as [t'' r]. now rewrite app_assoc.
Qed.

Lemma io_bind_ret_l {A B} (a : A) (k : A -> io B) : io_bind (io_ret a) k = k a.
Proof. unfold io_ret. simpl. now destruct (k a). Qed.

Lemma io_for_each_app {S A} (body : S -> A -> io S) (l1 l2 : list A) (s : S) :
  io_for_each body (l1 ++ l2) s
  = io_bind (io_for_each body l1 s) (io_for_each body l2).
Proof.
  revert s; induction l1 as [|x l1 IH]; intros s; cbn [app io_for_each].
  - now rewrite io_bind_ret_l.
  - destruct (body s x) as [t [s'|e]]; cbn [io_bind]; [|reflexivity].
    rewrite IH.
    destruct (io_for_each body l1 s') as [t1 [s1|e1]]; cbn [io_bind];
      [|reflexivity].
    destruct (io_for_each body l2 s1) as [t2 r2]. now rewrite app_assoc.
Qed.

Lemma combine_fst_snd {A B} (l : list (A * B)) :
  combine (map fst l) (map snd l) = l.
Proof. induction l as [|[a b] l IH]; simpl; [reflexivity | now rewrite IH]. Qed.

Lemma enumerate_from_app {A} (l1 l2 : list A) (s : nat) :
  combine (seq s (List.length (l1 ++ l2)%list)) (l1 ++ l2)%list
  = (combine (seq s (List.length l1)) l1
     ++ combine (seq (s + List.length l1) (List.length l2)) l2)%list.
Proof.
  revert s; induction l1 as [|a l1 IH]; intros s; simpl.
  - now rewrite Nat.add_0_r.
  - rewrite IH. now rewrite Nat.add_succ_r.
Qed.

Lemma map_snd_enumerate_from {A} (l : list A) (s : nat) :
  map snd (combine (seq s (List.length l)) l) = l.
Proof.
  revert s; induction l as [|a l IH]; intros s; simpl;
    [reflexivity | now rewrite IH].
Qed.

Lemma in_enumerate {A} (l : list A) (x : A) :
  In x l -> exists i, In (i, x) (enumerate l).
Proof.
  unfold enumerate. generalize 0%nat.
  induction l as [|a l IH]; intros s Hin; [contradiction|].
  destruct Hin as [->|Hin].
  - exists s. now left.
  - destruct (IH (S s) Hin) as (i & Hi). exists i. now right.
Qed.

Section BatchFacts.

Variable W : World.
Variable FLAGS : Flags.
Variable yolo : YOLO.
Variable total : Z.

Let body := detect_img_body W FLAGS yolo total.
Let path_of (filename : string) := path_join (img_root FLAGS) filename.

Lemma body_isdir st i f :
  isdir W (path_of f) = true -> body st (i, f) = io_ret st.
Proof.
  intros H. unfold body, detect_img_body. destruct st as [names boxes].
  fold (path_of f). now rewrite H.
Qed.

Lemma body_open_error names boxes i f :
  isdir W (path_of f) = false -> Image_open W (path_of f) = None ->
  body (names, boxes) (i, f) = ([open_hint (path_of f)], Ok (names, boxes)).
Proof.
  intros Hd Ho. unfold body, detect_img_body. fold (path_of f).
  now rewrite Hd, Ho.
Qed.

Lemma body_detected names boxes i f image r_image out_str :
  isdir W (path_of f) = false -> Image_open W (path_of f) = Some image ->
  detect_image W yolo image = Ok (r_image, out_str) ->
  exists text,
    body (names, boxes) (i, f)
    = ([StdoutWrite text], Ok ((names ++ [f])%list, (boxes ++ [out_str])%list)).
Proof.
  intros Hd Ho He. unfold body, detect_img_body. fold (path_of f).
  rewrite Hd, Ho, He. eexists. reflexivity.
Qed.

Lemma body_detect_error st i f image e :
  isdir W (path_of f) = false -> Image_open W (path_of f) = Some image ->
  detect_image W yolo image = Err e ->
  body st (i, f) = ([], Err e).
Proof.
  intros Hd Ho He. unfold body, detect_img_body. destruct st as [names boxes].
  fold (path_of f). now rewrite Hd, Ho, He.
Qed.

(** The four ways one iteration can go. *)
Lemma body_cases st i f :
  (isdir W (path_of f) = true /\ body st (i, f) = io_ret st)
  \/ (isdir W (path_of f) = false /\ Image_open W (path_of f) = None
      /\ body st (i, f) = ([open_hint (path_of f)], Ok st))
  \/ (exists image r_image out_str text,
         isdir W (path_of f) = false /\ Image_open W (path_of f) = Some image
         /\ detect_image W yolo image = Ok (r_image, out_str)
         /\ body st (i, f)
            = ([StdoutWrite text],
               Ok ((fst st ++ [f])%list, (snd st ++ [out_str])%list)))
  \/ (exists image e,
         isdir W (path_of f) = false /\ Image_open W (path_of f) = Some image
         /\ detect_image W yolo image = Err e
         /\ body st (i, f) = ([], Err e)).
Proof.
  destruct st as [names boxes].
  destruct (isdir W (path_of f)) eqn:Hd.
  - left. split; [reflexivity|]. now apply body_isdir.
  - destruct (Image_open W (path_of f)) as [image|] eqn:Ho.
    + destruct (detect_image W yolo image) as [[r_image out_str]|e] eqn:He.
      * right. right. left.
        destruct (body_detected names boxes i f image r_image out_str Hd Ho He)
          as (text & E).
        exists image, r_image, out_str, text. auto.
      * right. right. right. exists image, e.
        repeat split; auto. now apply (body_detect_error _ i f image e).
    + right. left. repeat split. now apply body_open_error.
Qed.

(** The loop prints and reports progress, and does nothing else. *)
Lemma loop_events (l : list (nat * string)) :
  forall st, forallb loop_event (fst (io_for_each body l st)) = true.
Proof.
  induction l as [|[i f] l IH]; intros st; cbn [io_for_each]; [reflexivity|].
  destruct (body_cases st i f)
    as [(_ & E) | [(_ & _ & E) | [(im & r & o & t & _ & _ & _ & E)
                                 | (im & e & _ & _ & _ & E)]]];
    rewrite E; unfold io_ret; cbn [io_bind]; try reflexivity.
  - specialize (IH st). destruct (io_for_each body l st). exact IH.
  - specialize (IH st). destruct (io_for_each body l st). exact IH.
  - match goal with |- context [io_for_each body l ?s] =>
      specialize (IH s); destruct (io_for_each body l s) end.
    exact IH.
Qed.

(** When no detection fails, the loop appends the rows of its files. *)
Lemma loop_ok (l : list (nat * string)) :
  (forall i f image, In (i, f) l ->
     isdir W (path_of f) = false -> Image_open W (path_of f) = Some image ->
     exists r, detect_image W yolo image = Ok r) ->
  forall names boxes,
  exists tr,
    io_for_each body l (names, boxes)
    = (tr, Ok ((names ++ map fst (rows_of W FLAGS yolo (map snd l)))%list,
               (boxes ++ map snd (rows_of W FLAGS yolo (map snd l)))%list))
    /\ (forall i f, In (i, f) l ->
          isdir W (path_of f) = false -> Image_open W (path_of f) = None ->
          In (open_hint (path_of f)) tr).
Proof.
  induction l as [|[i f] l IH]; intros Hall names boxes.
  - exists []. cbn. rewrite !app_nil_r. split; [reflexivity|]. contradiction.
  - assert (Hall' : forall i f image, In (i, f) l ->
              isdir W (path_of f) = false ->
              Image_open W (path_of f) = Some image ->
              exists r, detect_image W yolo image = Ok r).
    { intros j g im Hin. apply (Hall j g im). now right. }
    specialize (IH Hall').
    cbn [io_for_each map snd rows_of flat_map]. fold (path_of f).
    fold (rows_of W FLAGS yolo (map snd l)).
    destruct (body_cases (names, boxes) i f)
      as [(Hd & E) | [(Hd & Ho & E) | [(im & r & o & t & Hd & Ho & He & E)
                                      | (im & e & Hd & Ho & He & _)]]].
    + rewrite E, Hd, io_bind_ret_l. destruct (IH names boxes) as (tr & El & Hh).
      exists tr. split; [exact El|].
      intros j g [Eq|Hin] Hd' Ho'; [inversion Eq; subst; congruence|].
      now apply (Hh j g).
    + rewrite E, Hd, Ho. cbn [io_bind].
      destruct (IH names boxes) as (tr & El & Hh). rewrite El.
      exists (open_hint (path_of f) :: tr). split; [reflexivity|].
      intros j g [Eq|Hin] Hd' Ho'.
      * inversion Eq; subst. now left.
      * right. now apply (Hh j g).
    + rewrite E, Hd, Ho, He. cbn [io_bind fst snd].
      destruct (IH (names ++ [f])%list (boxes ++ [o])%list) as (tr & El & Hh).
      rewrite El. exists (StdoutWrite t :: tr). cbn [app map fst snd].
      rewrite <- !app_assoc. split; [reflexivity|].
      intros j g [Eq|Hin] Hd' Ho'; [inversion Eq; subst; congruence|].
      right. now apply (Hh j g).
    + destruct (Hall i f im (or_introl eq_refl) Hd Ho) as (r & Hr). congruence.
Qed.

(** A loop that ends normally has detected every image it opened. *)
Lemma loop_ok_inv (l : list (nat * string)) :
  forall st tr st',
    io_for_each body l st = (tr, Ok st') ->
    forall i f image, In (i, f) l ->
      isdir W (path_of f) = false -> Image_open W (path_of f) = Some image ->
      exists r, detect_image W yolo image = Ok r.
Proof.
  induction l as [|[i f] l IH]; intros st tr st' Hrun j g image Hin Hd Ho.
  - contradiction.
  - cbn [io_for_each] in Hrun.
    destruct (body st (i, f)) as [t0 [s0|e0]] eqn:Eb; cbn [io_bind] in Hrun;
      [|discriminate].
    destruct (io_for_each body l s0) as [t1 [s1|e1]] eqn:El; [|discriminate].
    destruct Hin as [Eq|Hin]; [|now apply (IH s0 t1 s1 El j g image)].
    inversion Eq; subst j g.
    destruct (body_cases st i f)
      as [(Hd' & _) | [(_ & Ho' & _) | [(im & r & o & t & _ & Ho' & He & _)
                                       | (im & e & _ & _ & _ & E)]]];
      try congruence.
    exists (r, o). congruence.
Qed.

End BatchFacts.

Lemma loop_event_only (tr : list event) :
  forallb loop_event tr = true ->
  ~ In CloseSession tr /\ forall p rows, ~ In (ToCsv p rows) tr.
Proof.
  intros H. rewrite forallb_forall in H.
  split; [|intros p rows]; intros Hin; apply H in Hin; discriminate.
Qed.

Lemma rows_of_names (W : World) (FLAGS : Flags) (yolo : YOLO)
    (files : list string) :
  (forall f image, In f files ->
     isdir W (path_join (img_root FLAGS) f) = false ->
     Image_open W (path_join (img_root FLAGS) f) = Some image ->
     exists r, detect_image W yolo image = Ok r) ->
  map fst (rows_of W FLAGS yolo files) = filter (opens W FLAGS) files.
Proof.
  induction files as [|f files IH]; intros Hall; [reflexivity|].
  cbn [rows_of flat_map filter]. fold (rows_of W FLAGS yolo files).
  rewrite map_app, IH by (intros g im Hin; apply Hall; now right).
  destruct (isdir W (path_join (img_root FLAGS) f)) eqn:Hd.
  { replace (opens W FLAGS f) with false
      by (unfold opens; now rewrite Hd). reflexivity. }
  destruct (Image_open W (path_join (img_root FLAGS) f)) as [im|] eqn:Ho.
  - replace (opens W FLAGS f) with true
      by (unfold opens; now rewrite Hd, Ho).
    destruct (Hall f im (or_introl eq_refl) Hd Ho) as ([r o] & Hr).
    rewrite Hr. reflexivity.
  - replace (opens W FLAGS f) with false
      by (unfold opens; now rewrite Hd, Ho). reflexivity.
Qed.

(** C7. A file that does not open as an image is skipped: the loop prints
    the retry hint, leaves the table as it was and goes on with the next
    file. So, in a run where no detection fails, the table that is written
    holds exactly the entries that are files and open as images, in listing
    order, and one corrupt file among two valid images gives a table of two
    rows. *)
Theorem detect_img_skips_unreadable (W : World) (FLAGS : Flags) (yolo : YOLO) :
  (forall total i f rest names boxes_str,
      isdir W (path_join (img_root FLAGS) f) = false ->
      Image_open W (path_join (img_root FLAGS) f) = None ->
      io_for_each (detect_img_body W FLAGS yolo total) ((i, f) :: rest)
        (names, boxes_str)
      = io_bind (emit (open_hint (path_join (img_root FLAGS) f)))
          (fun _ => io_for_each (detect_img_body W FLAGS yolo total) rest
                      (names, boxes_str)))
  /\ (forall files,
         listdir W (img_root FLAGS) = Ok files ->
         (forall f image, In f files ->
            isdir W (path_join (img_root FLAGS) f) = false ->
            Image_open W (path_join (img_root FLAGS) f) = Some image ->
            exists r, detect_image W yolo image = Ok r) ->
         to_csv_ok W (path_join (summit_dir FLAGS) "summit.csv") = true ->
         exists tr rows,
           detect_img W FLAGS yolo = (tr, Ok tt)
           /\ In (ToCsv (path_join (summit_dir FLAGS) "summit.csv") rows) tr
           /\ (forall p rows', In (ToCsv p rows') tr -> rows' = rows)
           /\ rows = rows_of W FLAGS yolo files
           /\ map fst rows = filter (opens W FLAGS) files
           /\ List.length rows = List.length (filter (opens W FLAGS) files)
           /\ forall f, In f files ->
                isdir W (path_join (img_root FLAGS) f) = false ->
                Image_open W (path_join (img_root FLAGS) f) = None ->
                In (open_hint (path_join (img_root FLAGS) f)) tr
                /\ ~ In f (map fst rows)).
Proof.
  split.
  { intros total i f rest names boxes_str Hd Ho. cbn [io_for_each].
    rewrite (body_open_error W FLAGS yolo total names boxes_str i f Hd Ho).
    reflexivity. }
  intros files Hls Hall Hcsv.
  set (total := Z.of_nat (List.length files)).
  destruct (loop_ok W FLAGS yolo total (enumerate files)) with
    (names := @nil string) (boxes := @nil string) as (tr & El & Hh).
  { intros i f im Hin. apply Hall. unfold enumerate in Hin.
    now apply in_combine_r in Hin. }
  unfold enumerate in El at 2 3. rewrite map_snd_enumerate_from in El.
  cbn [app] in El.
  set (rows := rows_of W FLAGS yolo files) in *.
  assert (Hrun : detect_img W FLAGS yolo
                 = ((tr ++ [StdoutWrite (String LF "");
                            ToCsv (path_join (summit_dir FLAGS) "summit.csv") rows;
                            Print ("path = " ++ path_join (summit_dir FLAGS) "summit.csv");
                            CloseSession])%list, Ok tt)).
  { unfold detect_img. rewrite Hls. cbn [lift io_bind]. fold total.
    rewrite El. cbn [io_bind emit lift]. unfold data_frame.
    rewrite !length_map, Nat.eqb_refl, combine_fst_snd. fold rows.
    rewrite Hcsv. reflexivity. }
  assert (Hev : forallb loop_event tr = true).
  { pose proof (loop_events W FLAGS yolo total (enumerate files) ([], [])) as H.
    now rewrite El in H. }
  apply loop_event_only in Hev. destruct Hev as [_ Hnocsv].
  assert (Hnames : map fst rows = filter (opens W FLAGS) files)
    by now apply rows_of_names.
  exists (tr ++ [StdoutWrite (String LF "");
                 ToCsv (path_join (summit_dir FLAGS) "summit.csv") rows;
                 Print ("path = " ++ path_join (summit_dir FLAGS) "summit.csv");
                 CloseSession])%list, rows.
  split; [exact Hrun|]. split; [|split; [|split; [|split; [|split]]]].
  - apply in_or_app. right. simpl. auto.
  - intros p rows' Hin. apply in_app_or in Hin. destruct Hin as [Hin|Hin].
    + now apply Hnocsv in Hin.
    + simpl in Hin.
      destruct Hin as [H|[H|[H|[H|[]]]]]; try discriminate. now inversion H.
  - reflexivity.
  - exact Hnames.
  - rewrite <- Hnames. now rewrite length_map.
  - intros f Hin Hd Ho. split.
    + apply in_or_app. left. apply in_enumerate in Hin.
      destruct Hin as (i & Hi). now apply (Hh i f).
    + rewrite Hnames. intros Hf. apply filter_In in Hf. destruct Hf as [_ Hf].
      unfold opens in Hf. rewrite Hd, Ho in Hf. discriminate.
Qed.

Lemma detect_img_skips_unreadable_witness :
  exists tr rows,
    detect_img demo_world {| img_root := "img"; summit_dir := "out" |} demo_yolo
    = (tr, Ok tt)
    /\ In (ToCsv "out/summit.csv" rows) tr
    /\ rows = [("a.jpg", "5_10_40_40"); ("b.jpg", "5_10_40_40")]
    /\ List.length rows = 2%nat
    /\ In (open_hint "img/notes.txt") tr.
Proof.
  destruct (proj2 (detect_img_skips_unreadable demo_world
                     {| img_root := "img"; summit_dir := "out" |} demo_yolo)
              ["a.jpg"; "notes.txt"; "b.jpg"] eq_refl)
    as (tr & rows & Hrun & Hcsv & _ & Hrows & _ & _ & Hskip).
  - intros f image [<-|[<-|[<-|[]]]] _ Ho; vm_compute in Ho;
      try discriminate; inversion Ho; subst image; eexists; reflexivity.
  - reflexivity.
  - exists tr, rows. split; [exact Hrun|]. split; [exact Hcsv|].
    split; [rewrite Hrows; reflexivity|].
    split; [rewrite Hrows; reflexivity|].
    apply (Hskip "notes.txt"); [simpl; auto | reflexivity | reflexivity].
Defined.

(** C8. A failure of [detect_image] on an image that opened is not caught:
    the run ends with that failure, the files after it leave no trace, no
    table is written and the session is not closed. The session is closed
    only at the end of a run that listed the directory, detected every
    image it opened and wrote the table. *)
Theorem detect_img_aborts_without_release (W : World) (FLAGS : Flags)
    (yolo : YOLO) :
  (forall files pre f post image e,
      listdir W (img_root FLAGS) = Ok files ->
      files = (pre ++ f :: post)%list ->
      (forall g im, In g pre ->
         isdir W (path_join (img_root FLAGS) g) = false ->
         Image_open W (path_join (img_root FLAGS) g) = Some im ->
         exists r, detect_image W yolo im = Ok r) ->
      isdir W (path_join (img_root FLAGS) f) = false ->
      Image_open W (path_join (img_root FLAGS) f) = Some image ->
      detect_image W yolo image = Err e ->
      snd (detect_img W FLAGS yolo) = Err e
      /\ fst (detect_img W FLAGS yolo)
         = fst (io_for_each
                  (detect_img_body W FLAGS yolo (Z.of_nat (List.length files)))
                  (enumerate pre) ([], []))
      /\ ~ In CloseSession (fst (detect_img W FLAGS yolo))
      /\ forall p rows, ~ In (ToCsv p rows) (fst (detect_img W FLAGS yolo)))
  /\ (In CloseSession (fst (detect_img W FLAGS yolo)) ->
      snd (detect_img W FLAGS yolo) = Ok tt
      /\ exists files rows,
          listdir W (img_root FLAGS) = Ok files
          /\ In (ToCsv (path_join (summit_dir FLAGS) "summit.csv") rows)
               (fst (detect_img W FLAGS yolo))
          /\ forall f im, In f files ->
               isdir W (path_join (img_root FLAGS) f) = false ->
               Image_open W (path_join (img_root FLAGS) f) = Some im ->
               exists r, detect_image W yolo im = Ok r).
Proof.
  split.
  - intros files pre f post image e Hls Hfiles Hpre Hd Ho He.
    set (total := Z.of_nat (List.length files)).
    destruct (loop_ok W FLAGS yolo total (enumerate pre)) with
      (names := @nil string) (boxes := @nil string) as (tr & El & _).
    { intros i g im Hin. apply Hpre. unfold enumerate in Hin.
      now apply in_combine_r in Hin. }
    assert (Hrun : detect_img W FLAGS yolo = (tr, Err e)).
    { unfold detect_img. rewrite Hls. cbn [lift io_bind]. fold total.
      unfold enumerate at 1. rewrite Hfiles, enumerate_from_app.
      fold (enumerate pre). rewrite io_for_each_app, El.
      cbn [io_bind combine seq List.length io_for_each].
      rewrite (body_detect_error W FLAGS yolo total _ _ f image e Hd Ho He).
      cbn [io_bind]. now rewrite app_nil_r. }
    rewrite Hrun, El. cbn [fst snd].
    pose proof (loop_events W FLAGS yolo total (enumerate pre) ([], [])) as Hev.
    rewrite El in Hev. apply loop_event_only in Hev.
    destruct Hev as [Hc Hcsv]. auto.
  - unfold detect_img.
    destruct (listdir W (img_root FLAGS)) as [files|e0] eqn:Hls;
      cbn [lift io_bind]; [|cbn [fst]; intros []].
    set (total := Z.of_nat (List.length files)).
    pose proof (loop_events W FLAGS yolo total (enumerate files) ([], [])) as Hev.
    pose proof (loop_ok_inv W FLAGS yolo total (enumerate files) ([], [])) as Hinv.
    destruct (io_for_each (detect_img_body W FLAGS yolo total)
                (enumerate files) ([], [])) as [tr [[names boxes]|e1]].
    + cbn [fst] in Hev. apply loop_event_only in Hev. destruct Hev as [Hc _].
      cbn [io_bind emit lift].
      destruct (data_frame names boxes) as [summit|e2]; cbn [io_bind].
      * destruct (to_csv_ok W (path_join (summit_dir FLAGS) "summit.csv"));
          cbn [io_bind close_session emit fst snd app].
        -- intros _. split; [reflexivity|]. exists files, summit.
           split; [reflexivity|]. split.
           ++ apply in_or_app. right. simpl. auto.
           ++ intros f im Hin. apply in_enumerate in Hin.
              destruct Hin as (i & Hi).
              now apply (Hinv tr (names, boxes) eq_refl i f im).
        -- intros Hin. exfalso. repeat rewrite in_app_iff in Hin.
           simpl in Hin. intuition discriminate.
      * cbn [fst]. intros Hin. exfalso. repeat rewrite in_app_iff in Hin.
        simpl in Hin. intuition discriminate.
    + cbn [fst] in *. apply loop_event_only in Hev. destruct Hev as [Hc _].
      intros Hin. now apply Hc in Hin.
Qed.

Lemma detect_img_aborts_without_release_witness :
  detect_img demo_world {| img_root := "bad"; summit_dir := "out" |} demo_yolo
  = ([StdoutWrite (String CR ">> i = 1 / 3")],
     Err (CollaboratorError "sess.run")).
Proof.
  destruct (proj1 (detect_img_aborts_without_release demo_world
                     {| img_root := "bad"; summit_dir := "out" |} demo_yolo)
              ["a.jpg"; "zero.jpg"; "b.jpg"] ["a.jpg"] "zero.jpg" ["b.jpg"]
              {| width := 0; height := 0 |} (CollaboratorError "sess.run")
              eq_refl eq_refl)
    as (Hs & Ht & _).
  - intros g im [<-|[]] _ Ho. vm_compute in Ho. inversion Ho; subst im.
    eexists. reflexivity.
  - reflexivity.
  - reflexivity.
  - reflexivity.
  - destruct (detect_img demo_world _ demo_yolo) as [tr r].
    cbn [fst snd] in Hs, Ht. rewrite Hs, Ht. reflexivity.
Defined.

(* ================================================================= *)
(** * Further properties of the code *)

(** ** The encoder on arrays of different lengths *)

Lemma convert_result_to_str_short (ovf : Z -> Z) (boxes : list box)
    (scores : list Q) (classes : list Z) (image : Image) :
  (List.length boxes < List.length classes)%nat
  \/ (List.length scores < List.length classes)%nat ->
  convert_result_to_str ovf boxes scores classes image = Err IndexError.
Proof.
  intros Hshort.
  induction classes as [|c cs _] using rev_ind; [simpl in Hshort; lia|].
  rewrite length_app in Hshort. simpl in Hshort.
  unfold convert_result_to_str.
  rewrite enumerate_snoc, rev_app_distr. simpl rev. simpl app.
  cbn [for_each convert_body]. unfold getitem.
  destruct (nth_error boxes (List.length cs)) as [b|] eqn:Eb;
    [|reflexivity].
  destruct (nth_error scores (List.length cs)) as [sc|] eqn:Es;
    [|reflexivity].
  exfalso.
  assert (List.length cs < List.length boxes)%nat
    by (apply nth_error_Some; congruence).
  assert (List.length cs < List.length scores)%nat
    by (apply nth_error_Some; congruence).
  lia.
Qed.

Lemma convert_result_to_str_long (ovf : Z -> Z) (boxes : list box)
    (scores : list Q) (classes : list Z) (image : Image) :
  (List.length classes <= List.length boxes)%nat ->
  (List.length classes <= List.length scores)%nat ->
  convert_result_to_str ovf boxes scores classes image
  = Ok (join ";" (map (box_str ovf image)
                   (rev (firstn (List.length classes) boxes)))).
Proof.
  intros Hb Hs. unfold convert_result_to_str.
  now rewrite convert_loop by assumption.
Qed.

(** [boxes] and [scores] are indexed by the positions of [classes]: when
    one of them is shorter the very first iteration raises [IndexError];
    when both are long enough the entries past [len(classes)] are never
    read. *)
Theorem convert_result_to_str_index_error (ovf : Z -> Z) (boxes : list box)
    (scores : list Q) (classes : list Z) (image : Image) :
  ((List.length boxes < List.length classes)%nat
   \/ (List.length scores < List.length classes)%nat ->
   convert_result_to_str ovf boxes scores classes image = Err IndexError)
  /\ ((List.length classes <= List.length boxes)%nat ->
      (List.length classes <= List.length scores)%nat ->
      convert_result_to_str ovf boxes scores classes image
      = Ok (join ";" (map (box_str ovf image)
                       (rev (firstn (List.length classes) boxes))))).
Proof.
  split.
  - apply convert_result_to_str_short.
  - apply convert_result_to_str_long.
Qed.

Lemma convert_result_to_str_index_error_witness :
  convert_result_to_str (fun _ => int32_min)
    [(0 # 1, 0 # 1, 8 # 1, 8 # 1)%Q] [(1 # 2)%Q; (1 # 2)%Q] [0; 1]
    {| width := 10; height := 10 |} = Err IndexError
  /\ convert_result_to_str (fun _ => int32_min)
       [(0 # 1, 0 # 1, 8 # 1, 8 # 1)%Q; (1 # 1, 2 # 1, 9 # 1, 7 # 1)%Q]
       [(1 # 2)%Q; (1 # 2)%Q; (1 # 2)%Q] [0]
       {| width := 10; height := 10 |} = Ok "0_0_8_8".
Proof.
  split.
  - apply (proj1 (convert_result_to_str_index_error (fun _ => int32_min)
                    [(0 # 1, 0 # 1, 8 # 1, 8 # 1)%Q] [(1 # 2)%Q; (1 # 2)%Q]
                    [0; 1] {| width := 10; height := 10 |})).
    left. simpl. lia.
  - rewrite (proj2 (convert_result_to_str_index_error (fun _ => int32_min)
                      [(0 # 1, 0 # 1, 8 # 1, 8 # 1)%Q;
                       (1 # 1, 2 # 1, 9 # 1, 7 # 1)%Q]
                      [(1 # 2)%Q; (1 # 2)%Q; (1 # 2)%Q] [0]
                      {| width := 10; height := 10 |}));
      [reflexivity | simpl; lia | simpl; lia].
Defined.

(** ** Reading the encoding back *)

Lemma contains_app (c : ascii) (a b : string) :
  contains c (a ++ b) = contains c a || contains c b.
Proof.
  induction a as [|x a IH]; simpl; [reflexivity|].
  now rewrite IH, orb_assoc.
Qed.

Lemma split_no_sep (sep : ascii) (a : string) :
  contains sep a = false -> split sep a = [a].
Proof.
  induction a as [|x a IH]; simpl; intros H; [reflexivity|].
  apply orb_false_iff in H. destruct H as [Hx Ha].
  rewrite Hx, (IH Ha). reflexivity.
Qed.

Lemma split_app_sep (sep : ascii) (a r : string) :
  contains sep a = false ->
  split sep (a ++ String sep r) = a :: split sep r.
Proof.
  induction a as [|x a IH]; simpl; intros H.
  - now rewrite Ascii.eqb_refl.
  - apply orb_false_iff in H. destruct H as [Hx Ha].
    rewrite Hx, (IH Ha). reflexivity.
Qed.

Lemma split_join (sep : ascii) (l : list string) :
  l <> [] ->
  Forall (fun a => contains sep a = false) l ->
  split sep (join (String sep "") l) = l.
Proof.
  induction l as [|a l IH]; intros Hne Hall; [contradiction|].
  inversion Hall as [|? ? Ha Hl]; subst.
  rewrite join_cons. destruct l as [|b l].
  - now apply split_no_sep.
  - cbn [append]. rewrite split_app_sep by exact Ha.
    rewrite IH; [reflexivity | discriminate | exact Hl].
Qed.

(** A decimal literal has digits and a sign, and nothing else. *)
Lemma string_of_uint_chars (c : ascii) (d : Decimal.uint) :
  digit_value c = None -> contains c (NilEmpty.string_of_uint d) = false.
Proof.
  intros Hc.
  induction d as [|d IH|d IH|d IH|d IH|d IH|d IH|d IH|d IH|d IH|d IH];
    cbn [NilEmpty.string_of_uint contains]; [reflexivity|..];
    rewrite IH, orb_false_r;
    match goal with |- Ascii.eqb ?x c = false =>
      destruct (Ascii.eqb_spec x c) as [<-|]; [discriminate | reflexivity]
    end.
Qed.

Lemma str_chars (c : ascii) (z : Z) :
  digit_value c = None -> c <> "-"%char -> contains c (str z) = false.
Proof.
  intros Hc Hm. unfold str.
  assert (U : forall d, contains c (NilZero.string_of_uint d) = false).
  { intros d. unfold NilZero.string_of_uint.
    destruct d; try apply (string_of_uint_chars c _ Hc).
    cbn [contains]. rewrite orb_false_r.
    destruct (Ascii.eqb_spec "0" c) as [<-|]; [discriminate | reflexivity]. }
  destruct (Z.to_int z) as [d|d]; cbn [NilZero.string_of_int contains];
    [apply U|].
  rewrite U, orb_false_r.
  destruct (Ascii.eqb_spec "-" c) as [<-|]; [contradiction | reflexivity].
Qed.

Lemma int_of_str_str (z : Z) : int_of_str (str z) = Some z.
Proof.
  unfold int_of_str, str. rewrite NilZero.isi.
  - simpl. now rewrite DecimalZ.of_to.
  - destruct z; simpl; try discriminate.
    intros E. injection E as E. now apply Unsigned.to_uint_nonnil in E.
  - destruct z; simpl; try discriminate.
    intros E. injection E as E. now apply Unsigned.to_uint_nonnil in E.
Qed.

Lemma box_str_fields (ovf : Z -> Z) (image : Image) (b : box) :
  let '(l, t, w, h) := fields ovf image b in
  box_str ovf image b = str l ++ "_" ++ str t ++ "_" ++ str w ++ "_" ++ str h.
Proof.
  unfold fields, box_str. destruct (clamp ovf image b) as [[[t l] bt] r].
  reflexivity.
Qed.

Lemma box_str_no_semicolon (ovf : Z -> Z) (image : Image) (b : box) :
  contains ";" (box_str ovf image b) = false.
Proof.
  pose proof (box_str_fields ovf image b) as E.
  destruct (fields ovf image b) as [[[l t] w] h]. rewrite E.
  rewrite !contains_app, !str_chars by (reflexivity || discriminate).
  reflexivity.
Qed.

Lemma box_str_split (ovf : Z -> Z) (image : Image) (b : box) :
  let '(l, t, w, h) := fields ovf image b in
  split "_" (box_str ovf image b) = [str l; str t; str w; str h].
Proof.
  pose proof (box_str_fields ovf image b) as E.
  destruct (fields ovf image b) as [[[l t] w] h]. rewrite E.
  cbn [append].
  rewrite !split_app_sep, split_no_sep
    by (apply str_chars; [reflexivity | discriminate]).
  reflexivity.
Qed.

(** The encoding can be read back. Splitting a non-empty result at the
    semicolons and every piece at the underscores, and reading the decimal
    literals, gives the numbers (left, top, width, height) of the
    detections, the last detection first. The result for no detection,
    the empty string, splits into one empty piece and not into none. *)
Theorem convert_result_to_str_reads_back (ovf : Z -> Z) (boxes : list box)
    (scores : list Q) (classes : list Z) (image : Image) :
  List.length boxes = List.length classes ->
  List.length scores = List.length classes ->
  exists out,
    convert_result_to_str ovf boxes scores classes image = Ok out
    /\ (boxes <> [] ->
        map (fun piece => map int_of_str (split "_" piece)) (split ";" out)
        = map (fun b => let '(l, t, w, h) := fields ovf image b in
                        [Some l; Some t; Some w; Some h])
            (rev boxes))
    /\ (boxes = [] -> out = "" /\ split ";" out = [""]).
Proof.
  intros Hb Hs. exists (join ";" (map (box_str ovf image) (rev boxes))).
  split; [now apply convert_result_to_str_join|]. split.
  - intros Hne. rewrite split_join.
    + rewrite map_map. apply map_ext. intros b.
      pose proof (box_str_split ovf image b) as E.
      destruct (fields ovf image b) as [[[l t] w] h]. rewrite E.
      cbn [map]. now rewrite !int_of_str_str.
    + intros E. apply map_eq_nil in E.
      apply (f_equal (@rev box)) in E. rewrite rev_involutive in E.
      now apply Hne.
    + apply Forall_map, Forall_forall. intros b _.
      apply box_str_no_semicolon.
  - intros ->. split; reflexivity.
Qed.

Lemma convert_result_to_str_reads_back_witness :
  exists out,
    convert_result_to_str (fun _ => int32_min)
      [(0 # 1, 0 # 1, 8 # 1, 8 # 1)%Q; (1 # 1, -2 # 1, 3 # 1, -1 # 1)%Q]
      [(1 # 2)%Q; (1 # 2)%Q] [0; 1] {| width := 10; height := 10 |} = Ok out
    /\ map (fun piece => map int_of_str (split "_" piece)) (split ";" out)
       = [[Some 0; Some 1; Some (-1); Some 2]; [Some 0; Some 0; Some 8; Some 8]].
Proof.
  destruct (convert_result_to_str_reads_back (fun _ => int32_min)
              [(0 # 1, 0 # 1, 8 # 1, 8 # 1)%Q; (1 # 1, -2 # 1, 3 # 1, -1 # 1)%Q]
              [(1 # 2)%Q; (1 # 2)%Q] [0; 1] {| width := 10; height := 10 |}
              eq_refl eq_refl) as (out & E & R & _).
  exists out. split; [exact E|]. rewrite R by discriminate. reflexivity.
Defined.

(** ** The geometry of the clamped box *)

Lemma np_round_le_floor_succ (x : Q) : np_round x <= Qfloor x + 1.
Proof.
  unfold np_round.
  destruct (x - inject_Z (Qfloor x) ?= 1 # 2)%Q; [destruct (Z.even _)| |]; lia.
Qed.

Lemma np_round_mono (x y : Q) : (x <= y)%Q -> np_round x <= np_round y.
Proof.
  intros H. pose proof (Qfloor_resp_le _ _ H) as Hf.
  pose proof (np_round_ge_floor y). pose proof (np_round_le_floor_succ x).
  destruct (Z.eq_dec (Qfloor x) (Qfloor y)) as [E|N]; [|lia].
  unfold np_round. rewrite <- E.
  destruct (Qcompare_spec (x - inject_Z (Qfloor x)) (1 # 2)),
    (Qcompare_spec (y - inject_Z (Qfloor x)) (1 # 2));
    try destruct (Z.even (Qfloor x)); try lia; lra.
Qed.

Lemma np_round_below (x : Q) (n : Z) : (x <= inject_Z n)%Q -> np_round x <= n.
Proof.
  intros H. apply np_round_mono in H.
  now rewrite (np_round_integer (inject_Z n) n) in H by reflexivity.
Qed.

Lemma wrap32_small (z : Z) : int32_min <= z <= int32_max -> wrap32 z = z.
Proof.
  unfold int32_min, int32_max, wrap32. intros H.
  rewrite Z.mod_small; lia.
Qed.

Lemma fits_int32_iff (z : Z) :
  fits_int32 z = true <-> int32_min <= z <= int32_max.
Proof. unfold fits_int32. rewrite andb_true_iff, !Z.leb_le. tauto. Qed.

(** The value of a difference of clamped corners, when the 32-bit
    subtraction cannot wrap. *)
Lemma clamped_difference (ovf : Z -> Z) (size lo hi : Z) :
  fits_int32 lo = true -> fits_int32 hi = true ->
  int32_min <= hi - lo ->
  value (py_sub (py_min (PyInt size) (astype_int32 ovf hi))
                (py_max (PyInt 0) (astype_int32 ovf lo)))
  = Z.min size hi - Z.max 0 lo.
Proof.
  intros Hlo Hhi Hd. unfold astype_int32. rewrite Hlo, Hhi.
  apply fits_int32_iff in Hlo, Hhi. unfold int32_min, int32_max in *.
  unfold py_min, py_max. cbn [value].
  destruct (Z.ltb_spec hi size), (Z.ltb_spec 0 lo); cbn [py_sub value];
    try lia.
  rewrite wrap32_small; unfold int32_min, int32_max; lia.
Qed.

(** A box that, once rounded, lies inside the image is written as it is:
    left and top are its rounded corner, width and height the differences
    of the rounded corners, none of them negative. *)
Theorem fields_of_box_inside_image (ovf : Z -> Z) (image : Image)
    (top left_ bottom right_ : Q) :
  0 <= np_round left_ <= np_round right_ ->
  np_round right_ <= width image <= int32_max ->
  0 <= np_round top <= np_round bottom ->
  np_round bottom <= height image <= int32_max ->
  fields ovf image (top, left_, bottom, right_)
  = (np_round left_, np_round top,
     np_round right_ - np_round left_, np_round bottom - np_round top)
  /\ 0 <= np_round right_ - np_round left_ <= width image
  /\ 0 <= np_round bottom - np_round top <= height image.
Proof.
  intros Hl Hr Ht Hb.
  assert (F : forall z, 0 <= z <= int32_max -> fits_int32 z = true).
  { intros z Hz. apply fits_int32_iff. unfold int32_min, int32_max in *. lia. }
  split; [|lia].
  unfold fields, clamp. cbn [size fst snd].
  rewrite !clamped_difference
    by (try apply F; unfold int32_min, int32_max in *; lia).
  rewrite !value_py_max, !astype_int32_fits by (apply F; lia).
  cbn [value]. repeat f_equal; lia.
Qed.

Lemma fields_of_box_inside_image_witness :
  fields (fun _ => int32_min) {| width := 100; height := 80 |}
    (21 # 2, 5 # 1, 101 # 2, 449 # 10)%Q = (5, 10, 40, 40).
Proof.
  rewrite (proj1 (fields_of_box_inside_image (fun _ => int32_min)
                    {| width := 100; height := 80 |}
                    (21 # 2) (5 # 1) (101 # 2) (449 # 10)
                    ltac:(vm_compute; split; discriminate)
                    ltac:(vm_compute; split; discriminate)
                    ltac:(vm_compute; split; discriminate)
                    ltac:(vm_compute; split; discriminate))).
  reflexivity.
Defined.

(** A well-formed box that touches the image has a width between 0 and the
    image width and a height between 0 and the image height: a negative
    width or height can only come from an inverted box or from a box that
    lies outside the image. *)
Theorem fields_of_box_touching_image (ovf : Z -> Z) (image : Image)
    (top left_ bottom right_ : Q) :
  fits_int32 (np_round top) = true -> fits_int32 (np_round left_) = true ->
  fits_int32 (np_round bottom) = true -> fits_int32 (np_round right_) = true ->
  (left_ <= right_)%Q -> (0 <= right_)%Q -> (left_ <= inject_Z (width image))%Q ->
  (top <= bottom)%Q -> (0 <= bottom)%Q -> (top <= inject_Z (height image))%Q ->
  0 <= width image -> 0 <= height image ->
  let '(l, t, w, h) := fields ovf image (top, left_, bottom, right_) in
  0 <= l <= width image /\ 0 <= t <= height image
  /\ 0 <= w <= width image /\ 0 <= h <= height image
  /\ l + w <= width image /\ t + h <= height image.
Proof.
  intros Ft Fl Fb Fr Hlr Hr Hl Htb Hb Ht HW HH.
  pose proof (np_round_mono _ _ Hlr). pose proof (np_round_mono _ _ Htb).
  pose proof (np_round_above right_ 0 Hr). pose proof (np_round_above bottom 0 Hb).
  pose proof (np_round_below left_ _ Hl). pose proof (np_round_below top _ Ht).
  unfold fields, clamp. cbn [size fst snd].
  rewrite !clamped_difference by (try assumption; unfold int32_min; lia).
  rewrite !value_py_max, !astype_int32_fits by assumption.
  cbn [value]. lia.
Qed.

Lemma fields_of_box_touching_image_witness :
  let '(l, t, w, h) :=
    fields (fun _ => int32_min) {| width := 100; height := 80 |}
      (-7 # 2, 90 # 1, 200 # 1, 1000 # 1)%Q in
  0 <= l <= 100 /\ 0 <= t <= 80 /\ 0 <= w <= 100 /\ 0 <= h <= 80
  /\ l + w <= 100 /\ t + h <= 80.
Proof.
  apply (fields_of_box_touching_image (fun _ => int32_min)
           {| width := 100; height := 80 |}
           (-7 # 2) (90 # 1) (200 # 1) (1000 # 1));
    try reflexivity; try (unfold Qle; simpl; lia); simpl; lia.
Defined.

(** ** The class names *)

Lemma rstrip_head (c : ascii) (r : string) :
  isspace c = false -> rstrip (String c r) = String c (rstrip r).
Proof. intros H. cbn [rstrip]. rewrite H. now destruct (rstrip r). Qed.

Lemma rstrip_idem (s : string) : rstrip (rstrip s) = rstrip s.
Proof.
  induction s as [|c r IH]; [reflexivity|]. cbn [rstrip].
  destruct (rstrip r) as [|x r'] eqn:E.
  - destruct (isspace c) eqn:Hc; [reflexivity|].
    cbn [rstrip]. now rewrite Hc.
  - cbn [rstrip]. cbn [rstrip] in IH. now rewrite IH.
Qed.

Lemma lstrip_head (s : string) (c : ascii) (r : string) :
  lstrip s = String c r -> isspace c = false.
Proof.
  induction s as [|x s IH]; simpl; [discriminate|].
  destruct (isspace x) eqn:Hx; [exact IH|].
  intros E. inversion E; subst. exact Hx.
Qed.

Lemma strip_head (s : string) (c : ascii) (r : string) :
  strip s = String c r -> isspace c = false.
Proof.
  unfold strip. destruct (lstrip s) as [|x t] eqn:E; [discriminate|].
  pose proof (lstrip_head s x t E) as Hx.
  rewrite (rstrip_head x t Hx). intros E'. inversion E'; subst. exact Hx.
Qed.

Lemma strip_idem (s : string) : strip (strip s) = strip s.
Proof.
  destruct (strip s) as [|c r] eqn:E; [reflexivity|].
  pose proof (strip_head s c r E) as Hc.
  unfold strip in *. cbn [lstrip]. rewrite Hc, <- E. apply rstrip_idem.
Qed.

Lemma contains_lstrip (c : ascii) (s : string) :
  contains c s = false -> contains c (lstrip s) = false.
Proof.
  induction s as [|x s IH]; simpl; [reflexivity|]. intros H.
  destruct (isspace x); [|exact H].
  apply orb_false_iff in H. now apply IH.
Qed.

Lemma contains_rstrip (c : ascii) (s : string) :
  contains c s = false -> contains c (rstrip s) = false.
Proof.
  induction s as [|x s IH]; [reflexivity|]. cbn [contains rstrip]. intros H.
  apply orb_false_iff in H. destruct H as [Hx Hs]. specialize (IH Hs).
  destruct (rstrip s) as [|y r'].
  - destruct (isspace x); [reflexivity|]. cbn [contains]. now rewrite Hx.
  - cbn [contains] in *. now rewrite Hx, IH.
Qed.

Lemma contains_strip (c : ascii) (s : string) :
  contains c s = false -> contains c (strip s) = false.
Proof. intros H. now apply contains_rstrip, contains_lstrip. Qed.

Lemma rstrip_app_space (x : string) (c : ascii) :
  isspace c = true -> rstrip (x ++ String c "") = rstrip x.
Proof.
  intros Hc. induction x as [|a x IH]; cbn [append rstrip].
  - now rewrite Hc.
  - now rewrite IH.
Qed.

Lemma lstrip_app (x y : string) :
  lstrip (x ++ y) = match lstrip x with
                    | EmptyString => lstrip y
                    | z => z ++ y
                    end.
Proof.
  induction x as [|a x IH]; cbn [append lstrip]; [reflexivity|].
  destruct (isspace a); [exact IH | reflexivity].
Qed.

(** The terminator of a line does not survive the trimming. *)
Lemma strip_line (body : string) : strip (body ++ nl) = strip body.
Proof.
  unfold strip. rewrite lstrip_app.
  destruct (lstrip body) as [|c z]; [reflexivity|].
  unfold nl. now apply rstrip_app_space.
Qed.

Lemma readlines_shape (s : string) :
  Forall (fun l => exists body,
              contains LF body = false /\ (l = body ++ nl \/ l = body))
    (readlines s).
Proof.
  induction s as [|c r IH]; [constructor|]. cbn [readlines].
  destruct (Ascii.eqb c LF) eqn:Ec.
  - constructor; [|exact IH]. exists "". split; [reflexivity|]. left.
    apply Ascii.eqb_eq in Ec. now subst.
  - destruct (readlines r) as [|h t].
    + constructor; [|constructor]. exists (String c "").
      split; [cbn [contains]; now rewrite Ec | now right].
    + inversion IH as [|? ? (body & Hb & Hl) Ht]; subst.
      constructor; [|exact Ht]. exists (String c body).
      split; [cbn [contains]; now rewrite Ec, Hb|].
      destruct Hl as [->| ->]; [now left | now right].
Qed.

Lemma universal_newlines_no_CR (s : string) :
  contains CR (universal_newlines s) = false.
Proof.
  induction s as [|c r IH]; [reflexivity|]. cbn [universal_newlines].
  destruct (Ascii.eqb c CR) eqn:Ec.
  - destruct r as [|c2 r2]; [reflexivity|].
    destruct (Ascii.eqb c2 LF); [exact IH|].
    cbn [contains]. now rewrite IH.
  - cbn [contains]. now rewrite Ec, IH.
Qed.

Lemma contains_concat (c : ascii) (l : list string) :
  contains c (String.concat "" l) = existsb (contains c) l.
Proof.
  induction l as [|x l IH]; [reflexivity|].
  rewrite concat_empty_cons, contains_app, IH. reflexivity.
Qed.

(** Every class name is trimmed: it is a fixed point of [strip], it does
    not start with white space, and no line terminator, [\n] or [\r], is
    left in it. *)
Theorem _get_class_names_are_trimmed (W : World) (path : string)
    (names : list string) :
  _get_class W path = Ok names ->
  Forall (fun n => strip n = n
                   /\ (forall c r, n = String c r -> isspace c = false)
                   /\ contains LF n = false
                   /\ contains CR n = false)
    names.
Proof.
  unfold _get_class, open_text.
  destruct (read_text W (expanduser W path)) as [text|]; [|discriminate].
  cbn [rbind]. intros E. injection E as <-.
  set (t := universal_newlines text).
  assert (Hcr : forallb (fun l => negb (contains CR l)) (readlines t) = true).
  { pose proof (contains_concat CR (readlines t)) as H.
    rewrite readlines_concat in H. unfold t in H at 1.
    rewrite universal_newlines_no_CR in H. symmetry in H.
    apply forallb_forall. intros l Hl.
    destruct (contains CR l) eqn:El; [|reflexivity].
    assert (existsb (contains CR) (readlines t) = true)
      by (apply existsb_exists; eauto).
    congruence. }
  rewrite forallb_forall in Hcr.
  apply Forall_map. pose proof (readlines_shape t) as Hs.
  rewrite Forall_forall in *. intros l Hl.
  destruct (Hs l Hl) as (body & Hb & Hbody).
  specialize (Hcr l Hl). apply negb_true_iff in Hcr.
  split; [apply strip_idem|]. split; [apply strip_head|]. split.
  - destruct Hbody as [->| ->]; [rewrite strip_line|]; now apply contains_strip.
  - now apply contains_strip.
Qed.

Lemma _get_class_names_are_trimmed_witness :
  Forall (fun n => strip n = n
                   /\ (forall c r, n = String c r -> isspace c = false)
                   /\ contains LF n = false
                   /\ contains CR n = false)
    ["person"; ""; "car"].
Proof.
  apply (_get_class_names_are_trimmed demo_world "cls.txt"). reflexivity.
Defined.

(** *** Line endings *)

Lemma universal_newlines_id (s : string) :
  contains CR s = false -> universal_newlines s = s.
Proof.
  induction s as [|c r IH]; [reflexivity|]. cbn [contains universal_newlines].
  intros H. apply orb_false_iff in H. destruct H as [Hc Hr].
  now rewrite Hc, (IH Hr).
Qed.

Lemma universal_newlines_to_crlf (s : string) :
  contains CR s = false -> universal_newlines (to_crlf s) = s.
Proof.
  induction s as [|c r IH]; [reflexivity|]. cbn [contains to_crlf].
  intros H. apply orb_false_iff in H. destruct H as [Hc Hr].
  destruct (Ascii.eqb_spec c LF) as [->|N].
  - cbn [universal_newlines]. rewrite Ascii.eqb_refl.
    change (Ascii.eqb LF LF) with true. change (Ascii.eqb LF CR) with false.
    cbv iota. now rewrite (IH Hr).
  - cbn [universal_newlines]. now rewrite Hc, (IH Hr).
Qed.

(** Line endings do not matter: a configuration file saved with Windows
    line endings gives the same classes and the same anchors as the file
    with plain newlines. *)
Theorem config_files_ignore_line_endings (W : World) (unix win text : string) :
  contains CR text = false ->
  read_text W (expanduser W unix) = Some text ->
  read_text W (expanduser W win) = Some (to_crlf text) ->
  _get_class W win = _get_class W unix
  /\ _get_anchors W win = _get_anchors W unix.
Proof.
  intros Hcr Hu Hw. unfold _get_class, _get_anchors, open_text.
  rewrite Hu, Hw, (universal_newlines_to_crlf text Hcr),
    (universal_newlines_id text Hcr).
  split; reflexivity.
Qed.

Lemma config_files_ignore_line_endings_witness :
  _get_class demo_world2 "cls_win.txt" = Ok ["person"; "traffic light"]
  /\ _get_class demo_world2 "cls_unix.txt" = Ok ["person"; "traffic light"].
Proof.
  rewrite (proj1 (config_files_ignore_line_endings demo_world2
                    "cls_unix.txt" "cls_win.txt"
                    ("person" ++ nl ++ "traffic light" ++ nl)
                    eq_refl eq_refl eq_refl)).
  split; reflexivity.
Defined.

(** ** The anchors file *)

Lemma split_length (sep : ascii) (s : string) :
  List.length (split sep s) = S (count_char sep s).
Proof.
  induction s as [|c r IH]; [reflexivity|]. cbn [split count_char].
  destruct (Ascii.eqb c sep).
  - cbn [List.length]. now rewrite IH.
  - destruct (split sep r); cbn [List.length] in *; [discriminate | exact IH].
Qed.

Lemma list_comp_length {A B} (f : A -> result B) (l : list A) (ys : list B) :
  list_comp f l = Ok ys -> List.length ys = List.length l.
Proof.
  revert ys; induction l as [|x l IH]; intros ys; cbn [list_comp].
  - intros E. now injection E as <-.
  - destruct (f x) as [y|]; [|discriminate]. cbn [rbind].
    destruct (list_comp f l) as [ys'|]; [|discriminate]. cbn [rbind].
    intros E. injection E as <-. cbn [List.length]. now rewrite (IH ys').
Qed.

Lemma reshape2_length {A} (l : list A) (ps : list (A * A)) :
  reshape2 l = Ok ps -> List.length l = (2 * List.length ps)%nat.
Proof.
  revert ps; induction l as [| a | a b l IH] using list_pair_ind; intros ps;
    cbn [reshape2].
  - intros E. now injection E as <-.
  - discriminate.
  - destruct (reshape2 l) as [ps'|]; [|discriminate]. cbn [rbind].
    intros E. injection E as <-. cbn [List.length]. rewrite (IH ps' eq_refl). lia.
Qed.

Lemma reshape2_error {A} (l : list A) (e : exn) :
  reshape2 l = Err e -> e = ValueError.
Proof.
  induction l as [| a | a b l IH] using list_pair_ind; cbn [reshape2].
  - discriminate.
  - intros E. now injection E.
  - destruct (reshape2 l) as [ps'|e']; [discriminate|]. cbn [rbind].
    intros E. injection E as <-. now apply IH.
Qed.

(** The anchors are counted by the commas of the first line. A first line
    without a comma, and so an empty file, always fails with [ValueError];
    a successful load had an odd number of commas [k] and returns
    [(k+1)/2] pairs; and whatever goes wrong after the file is open is a
    [ValueError]. *)
Theorem _get_anchors_counts_commas (W : World) (path text : string) :
  read_text W (expanduser W path) = Some text ->
  let line := readline (universal_newlines text) in
  (contains "," line = false -> _get_anchors W path = Err ValueError)
  /\ (forall pairs, _get_anchors W path = Ok pairs ->
        (count_char "," line + 1 = 2 * List.length pairs)%nat)
  /\ (forall e, _get_anchors W path = Err e -> e = ValueError).
Proof.
  intros Hr line. unfold _get_anchors, open_text. rewrite Hr. cbn [rbind].
  fold line. split; [|split].
  - intros Hc. rewrite (split_no_sep "," line Hc). cbn [list_comp].
    destruct (float W line) as [v|] eqn:Ev.
    + now rewrite (py_float_some W line v Ev).
    + now rewrite (py_float_none W line Ev).
  - intros pairs.
    destruct (list_comp (py_float W) (split "," line)) as [vals|] eqn:El;
      [|discriminate].
    cbn [rbind]. intros E. apply reshape2_length in E.
    apply list_comp_length in El. rewrite split_length in El. lia.
  - intros e.
    destruct (list_comp_py_float_cases W (split "," line))
      as [(vals & El & _) | (El & _)]; rewrite El; cbn [rbind].
    + apply reshape2_error.
    + intros E. now injection E.
Qed.

Lemma _get_anchors_counts_commas_witness :
  _get_anchors demo_world2 "empty.txt" = Err ValueError
  /\ forall pairs, _get_anchors demo_world2 "anchors.txt" = Ok pairs ->
       List.length pairs = 2%nat.
Proof.
  split.
  - apply (proj1 (_get_anchors_counts_commas demo_world2 "empty.txt" ""
                    eq_refl)). reflexivity.
  - intros pairs E.
    apply (proj1 (proj2 (_get_anchors_counts_commas demo_world2 "anchors.txt"
                           ("10,14,  23,27" ++ nl) eq_refl))) in E.
    change (3 + 1 = 2 * List.length pairs)%nat in E. lia.
Defined.

Lemma universal_newlines_app (l x : string) :
  contains CR l = false ->
  universal_newlines (l ++ x) = l ++ universal_newlines x.
Proof.
  induction l as [|c r IH]; [reflexivity|]. cbn [contains append].
  intros H. apply orb_false_iff in H. destruct H as [Hc Hr].
  cbn [universal_newlines]. now rewrite Hc, (IH Hr).
Qed.

Lemma readline_app (l y : string) :
  contains LF l = false -> readline (l ++ String LF y) = l ++ nl.
Proof.
  induction l as [|c r IH]; cbn [contains append readline]; intros H.
  - now rewrite Ascii.eqb_refl.
  - apply orb_false_iff in H. destruct H as [Hc Hr].
    now rewrite Hc, (IH Hr).
Qed.

(** Only the first line of the anchors file is read: what follows its
    terminator changes nothing. *)
Theorem _get_anchors_reads_first_line (W : World)
    (path path1 line rest : string) :
  contains LF line = false -> contains CR line = false ->
  read_text W (expanduser W path) = Some (line ++ nl ++ rest) ->
  read_text W (expanduser W path1) = Some (line ++ nl) ->
  _get_anchors W path = _get_anchors W path1.
Proof.
  intros Hlf Hcr Hp Hp1. unfold _get_anchors, open_text. rewrite Hp, Hp1.
  cbn [rbind].
  rewrite (universal_newlines_app line (nl ++ rest) Hcr),
    (universal_newlines_app line nl Hcr).
  unfold nl. cbn [append universal_newlines].
  change (Ascii.eqb LF CR) with false. cbv iota.
  now rewrite !readline_app by exact Hlf.
Qed.

Lemma _get_anchors_reads_first_line_witness :
  _get_anchors demo_world2 "anchors2.txt" = _get_anchors demo_world2 "anchors.txt".
Proof.
  apply (_get_anchors_reads_first_line demo_world2 "anchors2.txt" "anchors.txt"
           "10,14,  23,27" ("81,82" ++ nl)); reflexivity.
Defined.

(** ** What [generate] does to the model files *)

(** The five ways [generate] can end. *)
Lemma generate_cases (W : World) (self_model_path : string)
    (anchors : list (float64 W * float64 W)) (class_names : list string) :
  let resolved := expanduser W self_model_path in
  let n := Z.of_nat (List.length anchors) in
  let c := Z.of_nat (List.length class_names) in
  let done := Print (resolved ++ " model, anchors, and classes loaded.") in
  generate W self_model_path anchors class_names
  = if endswith resolved ".h5" then
      match load_model W resolved with
      | None =>
          if load_weights W (fallback_body n c) self_model_path
          then ([LoadModel resolved;
                 LoadWeights (fallback_body n c) self_model_path; done],
                Ok (fallback_body n c))
          else ([LoadModel resolved;
                 LoadWeights (fallback_body n c) self_model_path],
                Err (CollaboratorError "load_weights"))
      | Some k =>
          if num_outputs k =? 0 then ([LoadModel resolved], Err ZeroDivisionError)
          else if PrimFloat.eqb (float_of_int (last_output_channels k))
                    (channels_expected n (num_outputs k) c)
               then ([LoadModel resolved; done], Ok (loaded k))
               else ([LoadModel resolved],
                     Err (AssertionError
                            "Mismatch between model and given anchor and class sizes"))
      end
    else ([], Err (AssertionError h5_message)).
Proof.
  intros resolved n c done. unfold generate. fold resolved n c.
  destruct (endswith resolved ".h5"); [|reflexivity].
  destruct (load_model W resolved) as [k|].
  - destruct (num_outputs k =? 0); [reflexivity|].
    now destruct (PrimFloat.eqb _ _).
  - now destruct (load_weights W (fallback_body n c) self_model_path).
Qed.

Ltac trace_facts :=
  repeat match goal with
    | |- _ /\ _ => split
    | |- _ <-> _ => split
    | |- ~ _ => intro
    | |- _ -> _ => intro
    | |- forall _, _ => intro
    | H : exists _, _ |- _ => destruct H
    | H : _ /\ _ |- _ => destruct H
    | H : In _ _ |- _ => simpl in H
    | H : _ \/ _ |- _ => destruct H
    | H : False |- _ => destruct H
    | H : ?x = ?y |- _ =>
        first [ discriminate H
              | is_var x; subst x | is_var y; subst y
              | progress (injection H as ?) ]
    end;
  try solve [ reflexivity | congruence | simpl; auto
            | eexists; reflexivity ].

(** The confirmation line of [generate] (line 71) is printed exactly when
    the model has been acquired: the resolved path ends in ".h5" and
    either the direct load failed and the weights loaded into the fallback
    model, or the direct load succeeded and passed the check of the output
    channels. It is printed before the rest of [generate] runs, so that it
    tells nothing about the graph built afterwards; and when lines 52-71
    raise, nothing has been printed. Weights are loaded only into the model
    built after the direct load failed, from the path as it was given;
    after a direct load that succeeded no weights are loaded; and no file
    is touched unless the resolved path ends in ".h5". *)
Theorem generate_trace (W : World) (self_model_path : string)
    (anchors : list (float64 W * float64 W)) (class_names : list string) :
  let run := generate W self_model_path anchors class_names in
  let resolved := expanduser W self_model_path in
  let n := Z.of_nat (List.length anchors) in
  let c := Z.of_nat (List.length class_names) in
  let done := Print (resolved ++ " model, anchors, and classes loaded.") in
  (In done (fst run)
   <-> endswith resolved ".h5" = true
       /\ ((load_model W resolved = None
            /\ load_weights W (fallback_body n c) self_model_path = true)
           \/ (exists k,
                 load_model W resolved = Some k
                 /\ num_outputs k <> 0
                 /\ PrimFloat.eqb (float_of_int (last_output_channels k))
                      (channels_expected n (num_outputs k) c) = true)))
  /\ (forall e, snd run = Err e -> ~ In done (fst run))
  /\ (forall m path, In (LoadWeights m path) (fst run) ->
        load_model W resolved = None /\ path = self_model_path
        /\ m = fallback_body n c)
  /\ (forall k, load_model W resolved = Some k ->
        forall w path, ~ In (LoadWeights w path) (fst run))
  /\ (forall path, In (LoadModel path) (fst run) ->
        path = resolved /\ endswith resolved ".h5" = true).
Proof.
  intros run resolved n c done. subst run.
  pose proof (generate_cases W self_model_path anchors class_names) as G.
  cbv zeta in G. fold resolved n c done in G. rewrite G. clear G.
  destruct (endswith resolved ".h5") eqn:Hh5.
  2:{ cbn [fst snd]. trace_facts. }
  destruct (load_model W resolved) as [k|] eqn:Hload.
  - destruct (Z.eqb_spec (num_outputs k) 0) as [Hz|Hz].
    + cbn [fst snd]. trace_facts.
    + destruct (PrimFloat.eqb (float_of_int (last_output_channels k))
                  (channels_expected n (num_outputs k) c)) eqn:Hc;
        cbn [fst snd]; trace_facts.
      right. exists k. auto.
  - destruct (load_weights W (fallback_body n c) self_model_path) eqn:Hw;
      cbn [fst snd]; trace_facts.
Qed.

Lemma generate_trace_witness :
  In (Print "/home/u/tiny.h5 model, anchors, and classes loaded.")
    (fst (generate demo_world "~/tiny.h5" [] ["a"]))
  /\ ~ In (Print "yolo.pb model, anchors, and classes loaded.")
        (fst (generate demo_world "yolo.pb" [] ["a"])).
Proof.
  pose proof (generate_trace demo_world "~/tiny.h5" [] ["a"]) as H1.
  pose proof (generate_trace demo_world "yolo.pb" [] ["a"]) as H2.
  cbv zeta in H1, H2. destruct H1 as (Hok & _). destruct H2 as (_ & Herr & _).
  split.
  - apply Hok. split; [reflexivity|]. left. split; reflexivity.
  - apply (Herr (AssertionError h5_message)). reflexivity.
Defined.

(** ** Construction of the detector *)

(** The configuration is read before the model is touched: an error of the
    classes file wins over one of the anchors file, and either of them
    ends the construction before any load is attempted. A detector that
    was constructed holds the classes of the file, the input size 416x416
    and the model that [generate] returned. *)
Theorem YOLO_init_order (W : World)
    (model_path classes_path anchors_path : string) :
  let run := YOLO_init W model_path classes_path anchors_path in
  (forall e, _get_class W classes_path = Err e -> run = ([], Err e))
  /\ (forall names e,
         _get_class W classes_path = Ok names ->
         _get_anchors W anchors_path = Err e -> run = ([], Err e))
  /\ (forall yolo, snd run = Ok yolo ->
        _get_class W classes_path = Ok (class_names yolo)
        /\ model_image_size yolo = (Some 416, Some 416)
        /\ exists anchors,
            _get_anchors W anchors_path = Ok anchors
            /\ generate W model_path anchors (class_names yolo)
               = (fst run, Ok (the_model yolo))).
Proof.
  intros run. subst run. unfold YOLO_init.
  destruct (_get_class W classes_path) as [names|e1]; cbn [lift io_bind].
  2:{ split; [|split]; [intros e E; now injection E as -> | discriminate
                        | cbn [snd]; discriminate]. }
  destruct (_get_anchors W anchors_path) as [anchors|e2]; cbn [lift io_bind].
  2:{ split; [discriminate|]. split.
      - intros names' e _ E. now injection E as ->.
      - cbn [snd]. discriminate. }
  split; [discriminate|]. split; [discriminate|].
  destruct (generate W model_path anchors names) as [tr [m|e3]] eqn:Eg;
    cbn [io_bind io_ret app fst snd]; [|discriminate].
  intros yolo E. injection E as <-. cbn [class_names model_image_size the_model].
  split; [reflexivity|]. split; [reflexivity|].
  exists anchors. rewrite app_nil_r, Eg. split; reflexivity.
Qed.

Lemma YOLO_init_order_witness :
  YOLO_init demo_world2 "yolo.h5" "missing.txt" "empty.txt" = ([], Err OSError)
  /\ YOLO_init demo_world2 "yolo.pb" "cls.txt" "empty.txt"
     = ([], Err ValueError).
Proof.
  pose proof (YOLO_init_order demo_world2 "yolo.h5" "missing.txt" "empty.txt")
    as H1.
  pose proof (YOLO_init_order demo_world2 "yolo.pb" "cls.txt" "empty.txt")
    as H2.
  cbv zeta in H1, H2. split.
  - apply (proj1 H1). reflexivity.
  - apply (proj1 (proj2 H2) ["person"; ""; "car"]); reflexivity.
Defined.

(** The fallback model is sized by the two files as they are read.
    Whenever the constructor loads weights into a model, that model has one
    class per line of the classes file, blank lines included, and half as
    many anchors as the first line of the anchors file has numbers, an
    even count; it is the tiny variant exactly for twelve numbers. A
    detector that was constructed has one class name per line of the
    classes file and, when the direct load failed, this model. *)
Theorem YOLO_init_fallback_model (W : World)
    (model_path classes_path anchors_path text_c text_a : string) :
  read_text W (expanduser W classes_path) = Some text_c ->
  read_text W (expanduser W anchors_path) = Some text_a ->
  let tokens := split "," (readline (universal_newlines text_a)) in
  let n_classes :=
    (count_LF (universal_newlines text_c)
     + if unterminated (universal_newlines text_c) then 1 else 0)%nat in
  let sized := fallback_body (Z.of_nat (List.length tokens / 2))
                 (Z.of_nat n_classes) in
  let run := YOLO_init W model_path classes_path anchors_path in
  (forall m path, In (LoadWeights m path) (fst run) ->
     m = sized
     /\ Nat.even (List.length tokens) = true
     /\ ((exists k c, m = tiny_yolo_body k c) <-> List.length tokens = 12%nat))
  /\ (forall yolo, snd run = Ok yolo ->
        List.length (class_names yolo) = n_classes
        /\ (load_model W (expanduser W model_path) = None ->
            the_model yolo = sized)).
Proof.
  intros Hc Ha tokens n_classes sized run. subst run.
  assert (Ec : _get_class W classes_path
               = Ok (map strip (readlines (universal_newlines text_c)))).
  { unfold _get_class, open_text. now rewrite Hc. }
  assert (Ln : List.length (map strip (readlines (universal_newlines text_c)))
               = n_classes).
  { rewrite length_map. apply readlines_length. }
  unfold YOLO_init. rewrite Ec. cbn [lift io_bind].
  destruct (_get_anchors W anchors_path) as [pairs|e] eqn:Ea;
    cbn [lift io_bind].
  2:{ cbn [fst snd]. split; [intros m path []|discriminate]. }
  assert (Lt : List.length tokens = (2 * List.length pairs)%nat).
  { unfold _get_anchors, open_text in Ea. rewrite Ha in Ea. cbn [rbind] in Ea.
    fold tokens in Ea.
    destruct (list_comp (py_float W) tokens) as [vals|] eqn:El; [|discriminate].
    cbn [rbind] in Ea. apply reshape2_length in Ea.
    apply list_comp_length in El. lia. }
  assert (Lp : (List.length tokens / 2 = List.length pairs)%nat).
  { rewrite Lt, Nat.mul_comm. apply Nat.div_mul. lia. }
  assert (Hev : Nat.even (List.length tokens) = true).
  { apply Nat.even_spec. exists (List.length pairs). exact Lt. }
  assert (Htiny : (exists k c, sized = tiny_yolo_body k c)
                  <-> List.length tokens = 12%nat).
  { subst sized. unfold fallback_body. rewrite Lp.
    destruct (Z.eqb_spec (Z.of_nat (List.length pairs)) 6) as [E|N].
    - split; [intros _; lia | eauto].
    - split; [intros (k & c & E); discriminate | intros E; lia]. }
  pose proof (generate_cases W model_path pairs
                (map strip (readlines (universal_newlines text_c)))) as G.
  cbv zeta in G. rewrite Ln, <- Lp in G. fold sized in G. rewrite G. clear G.
  destruct (endswith (expanduser W model_path) ".h5");
    [destruct (load_model W (expanduser W model_path)) as [k|];
     [destruct (num_outputs k =? 0); [|destruct (PrimFloat.eqb _ _)]
     |destruct (load_weights W sized model_path)]|];
    cbn [io_bind io_ret app fst snd class_names the_model]; trace_facts;
    apply Htiny; eauto.
Qed.

Lemma YOLO_init_fallback_model_witness :
  In (LoadWeights (yolo_body 0 3) "yolo.h5")
    (fst (YOLO_init demo_world "yolo.h5" "cls.txt" "anchors.txt"))
  /\ (forall m path,
         In (LoadWeights m path)
           (fst (YOLO_init demo_world "yolo.h5" "cls.txt" "anchors.txt")) ->
         m = yolo_body 0 3)
  /\ (forall yolo,
         snd (YOLO_init demo_world "yolo.h5" "cls.txt" "anchors.txt") = Ok yolo ->
         List.length (class_names yolo) = 3%nat).
Proof.
  pose proof (YOLO_init_fallback_model demo_world "yolo.h5" "cls.txt"
                "anchors.txt" ("person" ++ nl ++ nl ++ " car " ++ nl)
                ("10,14,  23,27" ++ nl) eq_refl eq_refl) as H.
  cbv zeta in H. destruct H as (Hw & Hy).
  split; [vm_compute; auto|]. split.
  - intros m path Hin. destruct (Hw m path Hin) as (E & _). rewrite E.
    reflexivity.
  - intros yolo E. destruct (Hy yolo E) as (L & _). rewrite L. reflexivity.
Defined.

(** ** One detection *)

(** With the input size of the constructor, [detect_image] letterboxes
    every image to 416x416, gives the session the image size as (height,
    width) and returns the image it was given with the encoding of what
    the session found. It fails exactly when the letterbox or the session
    fails or the session returns fewer boxes or scores than classes. *)
Theorem detect_image_succeeds_iff (W : World) (yolo : YOLO) (image : Image)
    (r : Image * string) :
  model_image_size yolo = (Some 416, Some 416) ->
  detect_image W yolo image = Ok r
  <-> exists px boxes scores classes,
        letterbox_image W image (416, 416) = Ok px
        /\ sess_run W px (height image, width image)
           = Ok (boxes, scores, classes)
        /\ (List.length classes <= List.length boxes)%nat
        /\ (List.length classes <= List.length scores)%nat
        /\ r = (image,
                join ";" (map (box_str (int32_overflow W) image)
                            (rev (firstn (List.length classes) boxes)))).
Proof.
  intros Hsize. unfold detect_image. rewrite Hsize.
  change (boxed_image_size (Some 416, Some 416) image) with (Ok (416, 416)).
  cbn [rbind size fst snd].
  destruct (letterbox_image W image (416, 416)) as [px|e1] eqn:El;
    cbn [rbind].
  2:{ split; [discriminate|]. intros (px & b & s & c & E & _). discriminate. }
  destruct (sess_run W px (height image, width image))
    as [[[boxes scores] classes]|e2] eqn:Es; cbn [rbind].
  2:{ split; [discriminate|].
      intros (px' & b & s & c & E1 & E2 & _). congruence. }
  assert (Hsame : forall px' b s c,
             Ok px = Ok px' ->
             sess_run W px' (height image, width image) = Ok (b, s, c) ->
             b = boxes /\ s = scores /\ c = classes).
  { intros px' b s c E1 E2. injection E1 as <-. rewrite Es in E2.
    now injection E2 as <- <- <-. }
  destruct (Nat.le_gt_cases (List.length classes) (List.length boxes)) as [Hb|Hb].
  - destruct (Nat.le_gt_cases (List.length classes) (List.length scores))
      as [Hs|Hs].
    + rewrite convert_result_to_str_long by assumption. cbn [rbind]. split.
      * intros E. injection E as <-. exists px, boxes, scores, classes. auto.
      * intros (px' & b & s & c & E1 & E2 & _ & _ & ->).
        destruct (Hsame px' b s c E1 E2) as (-> & -> & ->). reflexivity.
    + rewrite convert_result_to_str_short by (right; exact Hs).
      split; [discriminate|].
      intros (px' & b & s & c & E1 & E2 & _ & Hs' & _).
      destruct (Hsame px' b s c E1 E2) as (-> & -> & ->). lia.
  - rewrite convert_result_to_str_short by (left; exact Hb).
    split; [discriminate|].
    intros (px' & b & s & c & E1 & E2 & Hb' & _).
    destruct (Hsame px' b s c E1 E2) as (-> & -> & ->). lia.
Qed.

Lemma detect_image_succeeds_iff_witness :
  detect_image demo_world demo_yolo {| width := 100; height := 100 |}
  = Ok ({| width := 100; height := 100 |}, "5_10_40_40").
Proof.
  apply (proj2 (detect_image_succeeds_iff demo_world demo_yolo
                  {| width := 100; height := 100 |}
                  ({| width := 100; height := 100 |}, "5_10_40_40")
                  eq_refl)).
  exists tt, [(10 # 1, 5 # 1, 50 # 1, 45 # 1)%Q], [(9 # 10)%Q], [0].
  repeat split; simpl; lia.
Defined.

(** ** What a run writes *)

Lemma rows_of_nothing (W : World) (FLAGS : Flags) (yolo : YOLO)
    (files : list string) :
  (forall f, In f files -> opens W FLAGS f = false) ->
  rows_of W FLAGS yolo files = [].
Proof.
  induction files as [|f files IH]; intros H; [reflexivity|].
  cbn [rows_of flat_map]. fold (rows_of W FLAGS yolo files).
  rewrite IH by (intros g Hg; apply H; now right).
  pose proof (H f (or_introl eq_refl)) as Hf. unfold opens in Hf.
  destruct (isdir W (path_join (img_root FLAGS) f)); [reflexivity|].
  destruct (Image_open W (path_join (img_root FLAGS) f)); [discriminate|].
  reflexivity.
Qed.

(** The output of the loop when no detection fails: one line per entry
    that is not a directory. *)
Lemma loop_trace (W : World) (FLAGS : Flags) (yolo : YOLO) (total : Z)
    (l : list (nat * string)) :
  (forall i f image, In (i, f) l ->
     isdir W (path_join (img_root FLAGS) f) = false ->
     Image_open W (path_join (img_root FLAGS) f) = Some image ->
     exists r, detect_image W yolo image = Ok r) ->
  forall st,
    fst (io_for_each (detect_img_body W FLAGS yolo total) l st)
    = flat_map (entry_events W FLAGS total) l.
Proof.
  induction l as [|[i f] l IH]; intros Hall st; [reflexivity|].
  assert (Hall' : forall i f image, In (i, f) l ->
            isdir W (path_join (img_root FLAGS) f) = false ->
            Image_open W (path_join (img_root FLAGS) f) = Some image ->
            exists r, detect_image W yolo image = Ok r).
  { intros j g im Hin. apply (Hall j g im). now right. }
  specialize (IH Hall'). destruct st as [names boxes].
  cbn [io_for_each flat_map entry_events]. unfold detect_img_body at 1.
  destruct (isdir W (path_join (img_root FLAGS) f)) eqn:Hd; cbn [negb].
  - rewrite io_bind_ret_l. apply IH.
  - destruct (Image_open W (path_join (img_root FLAGS) f)) as [im|] eqn:Ho.
    + destruct (Hall i f im (or_introl eq_refl) Hd Ho) as ([r o] & Hr).
      rewrite Hr. cbn [lift io_bind emit io_ret app].
      match goal with |- context [io_for_each _ l ?s] =>
        specialize (IH s); destruct (io_for_each _ l s) as [t res] end.
      cbn [fst] in *. now rewrite IH.
    + cbn [io_bind emit io_ret app].
      specialize (IH (names, boxes)).
      destruct (io_for_each _ l (names, boxes)) as [t res].
      cbn [fst] in *. now rewrite IH.
Qed.

Lemma entry_events_count (W : World) (FLAGS : Flags) (total : Z)
    (l : list (nat * string)) :
  List.length (flat_map (entry_events W FLAGS total) l)
  = List.length
      (filter (fun ix => negb (isdir W (path_join (img_root FLAGS) (snd ix)))) l).
Proof.
  induction l as [|[i f] l IH]; [reflexivity|].
  cbn [flat_map filter snd entry_events]. rewrite length_app, IH.
  destruct (isdir W (path_join (img_root FLAGS) f)); cbn [negb]; [reflexivity|].
  now destruct (Image_open W (path_join (img_root FLAGS) f)).
Qed.

(** The run as a whole, when the directory lists and no detection fails:
    the loop, a newline, and then either the table, its path and the
    release of the session, or the failure to write the table. *)
Lemma detect_img_run (W : World) (FLAGS : Flags) (yolo : YOLO)
    (files : list string) :
  listdir W (img_root FLAGS) = Ok files ->
  (forall f image, In f files ->
     isdir W (path_join (img_root FLAGS) f) = false ->
     Image_open W (path_join (img_root FLAGS) f) = Some image ->
     exists r, detect_image W yolo image = Ok r) ->
  let total := Z.of_nat (List.length files) in
  let path := path_join (summit_dir FLAGS) "summit.csv" in
  let shown := flat_map (entry_events W FLAGS total) (enumerate files) in
  detect_img W FLAGS yolo
  = if to_csv_ok W path
    then ((shown ++ [StdoutWrite nl; ToCsv path (rows_of W FLAGS yolo files);
                     Print ("path = " ++ path); CloseSession])%list, Ok tt)
    else ((shown ++ [StdoutWrite nl])%list, Err OSError).
Proof.
  intros Hls Hall total path shown.
  assert (Hall' : forall i f image, In (i, f) (enumerate files) ->
            isdir W (path_join (img_root FLAGS) f) = false ->
            Image_open W (path_join (img_root FLAGS) f) = Some image ->
            exists r, detect_image W yolo image = Ok r).
  { intros i f im Hin. apply Hall. unfold enumerate in Hin.
    now apply in_combine_r in Hin. }
  destruct (loop_ok W FLAGS yolo total (enumerate files) Hall' [] [])
    as (tr & El & _).
  pose proof (loop_trace W FLAGS yolo total (enumerate files) Hall' ([], []))
    as Ht.
  rewrite El in Ht. cbn [fst] in Ht. fold shown in Ht. subst tr.
  unfold enumerate in El at 2 3. rewrite map_snd_enumerate_from in El.
  cbn [app] in El.
  unfold detect_img. rewrite Hls. cbn [lift io_bind]. fold total.
  rewrite El. cbn [io_bind emit lift]. unfold data_frame.
  rewrite !length_map, Nat.eqb_refl, combine_fst_snd. fold path.
  destruct (to_csv_ok W path); reflexivity.
Qed.

(** Everything a successful run writes. Each entry of the listing that is
    not a directory gives one line, the retry hint or the progress; the
    progress of an entry shows its position in the listing, directories
    and unreadable files counted, out of the length of the listing. Then
    come a newline, the table, its path and the release of the session. *)
Theorem detect_img_output (W : World) (FLAGS : Flags) (yolo : YOLO)
    (files : list string) :
  listdir W (img_root FLAGS) = Ok files ->
  (forall f image, In f files ->
     isdir W (path_join (img_root FLAGS) f) = false ->
     Image_open W (path_join (img_root FLAGS) f) = Some image ->
     exists r, detect_image W yolo image = Ok r) ->
  to_csv_ok W (path_join (summit_dir FLAGS) "summit.csv") = true ->
  let total := Z.of_nat (List.length files) in
  let path := path_join (summit_dir FLAGS) "summit.csv" in
  let shown := flat_map (entry_events W FLAGS total) (enumerate files) in
  detect_img W FLAGS yolo
  = ((shown ++ [StdoutWrite nl; ToCsv path (rows_of W FLAGS yolo files);
                Print ("path = " ++ path); CloseSession])%list, Ok tt)
  /\ List.length shown
     = List.length
         (filter (fun f => negb (isdir W (path_join (img_root FLAGS) f))) files)
  /\ (forall i f, nth_error files i = Some f -> opens W FLAGS f = true ->
        In (StdoutWrite (progress_line i total)) shown).
Proof.
  intros Hls Hall Hcsv total path shown.
  split; [|split].
  - pose proof (detect_img_run W FLAGS yolo files Hls Hall) as R.
    cbv zeta in R. rewrite Hcsv in R. exact R.
  - unfold shown. rewrite entry_events_count.
    rewrite <- (map_snd_enumerate_from files 0) at 2.
    fold (enumerate files).
    generalize (enumerate files). intros l.
    induction l as [|[i f] l IH]; [reflexivity|]. cbn [filter map snd].
    destruct (isdir W (path_join (img_root FLAGS) f)); cbn [negb List.length];
      now rewrite IH.
  - intros i f Hn Ho. unfold shown. apply in_flat_map.
    exists (i, f). split.
    + unfold enumerate. clear -Hn.
      assert (G : forall s, In ((s + i)%nat, f)
                              (combine (seq s (List.length files)) files)).
      { revert i Hn. induction files as [|g files IH]; intros [|i] Hn s;
          simpl in Hn; try discriminate.
        - injection Hn as ->. rewrite Nat.add_0_r. now left.
        - right. rewrite Nat.add_succ_r. apply (IH i Hn (S s)). }
      apply (G 0%nat).
    + unfold opens in Ho. apply andb_true_iff in Ho. destruct Ho as [Hd Hi].
      apply negb_true_iff in Hd. cbn [entry_events]. rewrite Hd.
      destruct (Image_open W (path_join (img_root FLAGS) f)); [|discriminate].
      now left.
Qed.

Lemma detect_img_output_witness :
  detect_img demo_world {| img_root := "img"; summit_dir := "out" |} demo_yolo
  = ([StdoutWrite (progress_line 0 3); open_hint "img/notes.txt";
      StdoutWrite (progress_line 2 3); StdoutWrite nl;
      ToCsv "out/summit.csv" [("a.jpg", "5_10_40_40"); ("b.jpg", "5_10_40_40")];
      Print "path = out/summit.csv"; CloseSession], Ok tt).
Proof.
  rewrite (proj1 (detect_img_output demo_world
                    {| img_root := "img"; summit_dir := "out" |} demo_yolo
                    ["a.jpg"; "notes.txt"; "b.jpg"] eq_refl
                    ltac:(intros f image [<-|[<-|[<-|[]]]] _ Ho;
                          vm_compute in Ho; try discriminate;
                          inversion Ho; subst image; eexists; reflexivity)
                    eq_refl)).
  reflexivity.
Defined.

(** A directory in which nothing opens as an image, and so the empty
    directory, is no error: whatever the detector is, the run prints the
    hints, writes a table without rows and releases the session. *)
Theorem detect_img_nothing_opens (W : World) (FLAGS : Flags) (yolo : YOLO)
    (files : list string) :
  listdir W (img_root FLAGS) = Ok files ->
  (forall f, In f files -> opens W FLAGS f = false) ->
  to_csv_ok W (path_join (summit_dir FLAGS) "summit.csv") = true ->
  let path := path_join (summit_dir FLAGS) "summit.csv" in
  let hints :=
    map (fun f => open_hint (path_join (img_root FLAGS) f))
      (filter (fun f => negb (isdir W (path_join (img_root FLAGS) f))) files) in
  detect_img W FLAGS yolo
  = ((hints ++ [StdoutWrite nl; ToCsv path []; Print ("path = " ++ path);
                CloseSession])%list, Ok tt).
Proof.
  intros Hls Hno Hcsv path hints.
  assert (Hnone : forall f, In f files ->
            isdir W (path_join (img_root FLAGS) f) = false ->
            Image_open W (path_join (img_root FLAGS) f) = None).
  { intros f Hin Hd. specialize (Hno f Hin). unfold opens in Hno.
    rewrite Hd in Hno. cbn [negb andb] in Hno.
    now destruct (Image_open W (path_join (img_root FLAGS) f)). }
  pose proof (detect_img_run W FLAGS yolo files Hls) as R.
  cbv zeta in R. rewrite R, Hcsv.
  2:{ intros f image Hin Hd Ho. rewrite (Hnone f Hin Hd) in Ho. discriminate. }
  rewrite (rows_of_nothing W FLAGS yolo files Hno).
  do 2 f_equal. subst hints. unfold enumerate. clear -Hnone.
  generalize (Z.of_nat (List.length files)) as total. intros total.
  generalize 0%nat.
  induction files as [|f files IH]; intros s; [reflexivity|].
  cbn [List.length seq combine flat_map entry_events filter map].
  rewrite IH by (intros g Hg; apply Hnone; now right).
  destruct (isdir W (path_join (img_root FLAGS) f)) eqn:Hd; cbn [negb];
    [reflexivity|].
  now rewrite (Hnone f (or_introl eq_refl) Hd).
Qed.

Lemma detect_img_nothing_opens_witness :
  detect_img demo_world3 {| img_root := "empty"; summit_dir := "out" |} demo_yolo
  = ([StdoutWrite nl; ToCsv "out/summit.csv" [];
      Print "path = out/summit.csv"; CloseSession], Ok tt)
  /\ detect_img demo_world3 {| img_root := "docs"; summit_dir := "out" |}
       demo_yolo
     = ([open_hint "docs/readme.md"; StdoutWrite nl; ToCsv "out/summit.csv" [];
         Print "path = out/summit.csv"; CloseSession], Ok tt).
Proof.
  split.
  - apply (detect_img_nothing_opens demo_world3
             {| img_root := "empty"; summit_dir := "out" |} demo_yolo []);
      [reflexivity | intros f [] | reflexivity].
  - apply (detect_img_nothing_opens demo_world3
             {| img_root := "docs"; summit_dir := "out" |} demo_yolo
             ["readme.md"; "sub"]);
      [reflexivity | intros f [<-|[<-|[]]]; reflexivity | reflexivity].
Defined.

(** The table is written only after the loop, and nothing guards that
    step: when the output file cannot be written, every image has been
    detected and reported, the run ends with the error, no table exists
    and the session is not released. A directory that cannot be listed
    ends the run before anything is printed. *)
Theorem detect_img_loses_the_table (W : World) (FLAGS : Flags) (yolo : YOLO) :
  (forall files,
      listdir W (img_root FLAGS) = Ok files ->
      (forall f image, In f files ->
         isdir W (path_join (img_root FLAGS) f) = false ->
         Image_open W (path_join (img_root FLAGS) f) = Some image ->
         exists r, detect_image W yolo image = Ok r) ->
      to_csv_ok W (path_join (summit_dir FLAGS) "summit.csv") = false ->
      detect_img W FLAGS yolo
      = ((flat_map (entry_events W FLAGS (Z.of_nat (List.length files)))
            (enumerate files) ++ [StdoutWrite nl])%list, Err OSError)
      /\ ~ In CloseSession (fst (detect_img W FLAGS yolo))
      /\ forall p rows, ~ In (ToCsv p rows) (fst (detect_img W FLAGS yolo)))
  /\ (forall e, listdir W (img_root FLAGS) = Err e ->
        detect_img W FLAGS yolo = ([], Err e)).
Proof.
  split.
  - intros files Hls Hall Hcsv.
    pose proof (detect_img_run W FLAGS yolo files Hls Hall) as R.
    cbv zeta in R. rewrite Hcsv in R. rewrite R. cbn [fst].
    split; [reflexivity|].
    assert (Hev : forall e,
               In e (flat_map (entry_events W FLAGS (Z.of_nat (List.length files)))
                       (enumerate files)) -> loop_event e = true).
    { intros e Hin. apply in_flat_map in Hin. destruct Hin as ([i f] & _ & Hin).
      cbn [entry_events] in Hin.
      destruct (isdir W _); [contradiction|].
      destruct (Image_open W _); destruct Hin as [<-|[]]; reflexivity. }
    split; [|intros p rows]; intros Hin; apply in_app_or in Hin;
      destruct Hin as [Hin|[Hin|[]]]; try discriminate;
      apply Hev in Hin; discriminate.
  - intros e Hls. unfold detect_img. now rewrite Hls.
Qed.

Lemma detect_img_loses_the_table_witness :
  detect_img demo_world3 {| img_root := "img"; summit_dir := "ro" |} demo_yolo
  = ([StdoutWrite (progress_line 0 3); open_hint "img/notes.txt";
      StdoutWrite (progress_line 2 3); StdoutWrite nl], Err OSError)
  /\ detect_img demo_world3 {| img_root := "nowhere"; summit_dir := "out" |}
       demo_yolo = ([], Err OSError).
Proof.
  split.
  - destruct (proj1 (detect_img_loses_the_table demo_world3
                       {| img_root := "img"; summit_dir := "ro" |} demo_yolo)
                ["a.jpg"; "notes.txt"; "b.jpg"] eq_refl) as (E & _).
    + intros f image [<-|[<-|[<-|[]]]] _ Ho; vm_compute in Ho;
        try discriminate; inversion Ho; subst image; eexists; reflexivity.
    + reflexivity.
    + rewrite E. reflexivity.
  - apply (proj2 (detect_img_loses_the_table demo_world3
                    {| img_root := "nowhere"; summit_dir := "out" |} demo_yolo)).
    reflexivity.
Defined.

(** The release of the session is the last thing a run does and the mark
    of its success: the run returns normally exactly when it released the
    session, and then its output ends with the table, the path of the
    table and the release, in this order, after nothing but messages. *)
Theorem detect_img_closes_last (W : World) (FLAGS : Flags) (yolo : YOLO) :
  let run := detect_img W FLAGS yolo in
  let path := path_join (summit_dir FLAGS) "summit.csv" in
  (snd run = Ok tt <-> In CloseSession (fst run))
  /\ (In CloseSession (fst run) ->
      exists messages rows,
        fst run = (messages ++ [ToCsv path rows; Print ("path = " ++ path);
                                CloseSession])%list
        /\ forallb loop_event messages = true).
Proof.
  intros run path. subst run. unfold detect_img.
  destruct (listdir W (img_root FLAGS)) as [files|e0]; cbn [lift io_bind].
  2:{ cbn [fst snd]. split; [split; [discriminate | intros []] | intros []]. }
  set (total := Z.of_nat (List.length files)).
  pose proof (loop_events W FLAGS yolo total (enumerate files) ([], [])) as Hev.
  destruct (io_for_each (detect_img_body W FLAGS yolo total)
              (enumerate files) ([], [])) as [tr [[names boxes]|e1]].
  2:{ cbn [fst snd] in *. apply loop_event_only in Hev. destruct Hev as [Hc _].
      split; [split; [discriminate | intros Hin; now apply Hc in Hin]|].
      intros Hin. now apply Hc in Hin. }
  cbn [fst] in Hev. pose proof (loop_event_only tr Hev) as [Hc _].
  cbn [io_bind emit lift].
  destruct (data_frame names boxes) as [summit|e2]; cbn [io_bind].
  2:{ cbn [fst snd app].
      assert (N : ~ In CloseSession (tr ++ [StdoutWrite (String LF "")])).
      { intros Hin. apply in_app_or in Hin.
        destruct Hin as [Hin|[Hin|[]]]; [now apply Hc | discriminate]. }
      split; [split; [discriminate | intros Hin; now apply N in Hin]|].
      intros Hin. now apply N in Hin. }
  fold path. destruct (to_csv_ok W path);
    cbn [io_bind close_session emit fst snd app].
  - split; [split; [intros _; apply in_or_app; right; simpl; auto
                   | reflexivity]|].
    intros _. exists (tr ++ [StdoutWrite (String LF "")])%list, summit. split.
    + now rewrite <- app_assoc.
    + rewrite forallb_app, Hev. reflexivity.
  - assert (N : ~ In CloseSession (tr ++ [StdoutWrite (String LF "")])).
    { intros Hin. apply in_app_or in Hin.
      destruct Hin as [Hin|[Hin|[]]]; [now apply Hc | discriminate]. }
    split; [split; [discriminate | intros Hin; now apply N in Hin]|].
    intros Hin. now apply N in Hin.
Qed.

Lemma detect_img_closes_last_witness :
  snd (detect_img demo_world {| img_root := "img"; summit_dir := "out" |}
         demo_yolo) = Ok tt
  /\ ~ In CloseSession
       (fst (detect_img demo_world {| img_root := "bad"; summit_dir := "out" |}
               demo_yolo)).
Proof.
  pose proof (detect_img_closes_last demo_world
                {| img_root := "img"; summit_dir := "out" |} demo_yolo) as H1.
  pose proof (detect_img_closes_last demo_world
                {| img_root := "bad"; summit_dir := "out" |} demo_yolo) as H2.
  cbv zeta in H1, H2. split.
  - apply (proj1 H1). vm_compute. tauto.
  - intros Hin. apply (proj1 H2) in Hin. discriminate.
Defined.

(** ** The main program *)

Lemma YOLO_init_leaves_session (W : World)
    (model_path classes_path anchors_path : string) :
  ~ In CloseSession (fst (YOLO_init W model_path classes_path anchors_path)).
Proof.
  unfold YOLO_init.
  destruct (_get_class W classes_path) as [names|]; cbn [lift io_bind];
    [|intros []].
  destruct (_get_anchors W anchors_path) as [anchors|]; cbn [lift io_bind];
    [|intros []].
  pose proof (generate_cases W model_path anchors names) as G. cbv zeta in G.
  rewrite G.
  destruct (endswith _ ".h5");
    [destruct (load_model W _) as [k|];
     [destruct (num_outputs k =? 0); [|destruct (PrimFloat.eqb _ _)]
     |destruct (load_weights W _ model_path)]|];
    cbn [io_bind io_ret app fst]; trace_facts.
Qed.

(** The program prints the model path, the classes path, the image root
    and the output directory (not the anchors path), constructs the
    detector and runs the batch. A construction that fails ends the
    program with its error before the directory is looked at; and the
    program returns normally exactly when the session was released. *)
Theorem main_runs_construction_then_batch (W : World) (FLAGS : Options) :
  let flags_shown :=
    [Print ("model_path  " ++ opt_model_path FLAGS);
     Print ("classes_path  " ++ opt_classes_path FLAGS);
     Print ("img_root  " ++ img_root (opt_flags FLAGS));
     Print ("summit_dir  " ++ summit_dir (opt_flags FLAGS))] in
  let init := YOLO_init W (opt_model_path FLAGS) (opt_classes_path FLAGS)
                (opt_anchors_path FLAGS) in
  (forall e, snd init = Err e ->
     main W FLAGS = ((flags_shown ++ fst init)%list, Err e))
  /\ (forall yolo, snd init = Ok yolo ->
        main W FLAGS
        = ((flags_shown ++ fst init
              ++ fst (detect_img W (opt_flags FLAGS) yolo))%list,
           snd (detect_img W (opt_flags FLAGS) yolo)))
  /\ (snd (main W FLAGS) = Ok tt <-> In CloseSession (fst (main W FLAGS))).
Proof.
  intros flags_shown init.
  pose proof (YOLO_init_leaves_session W (opt_model_path FLAGS)
                (opt_classes_path FLAGS) (opt_anchors_path FLAGS)) as Hinit.
  fold init in Hinit.
  assert (Hflags : ~ In CloseSession flags_shown).
  { intros [H|[H|[H|[H|[]]]]]; discriminate. }
  unfold main, print2. cbn [emit io_bind app]. fold init.
  change ("model_path " ++ " " ++ ?x) with ("model_path  " ++ x).
  change ("classes_path " ++ " " ++ ?x) with ("classes_path  " ++ x).
  change ("img_root " ++ " " ++ ?x) with ("img_root  " ++ x).
  change ("summit_dir " ++ " " ++ ?x) with ("summit_dir  " ++ x).
  destruct init as [t0 [yolo|e0]]; cbn [io_bind fst snd] in *.
  - pose proof (detect_img_closes_last W (opt_flags FLAGS) yolo) as Hrun.
    cbv zeta in Hrun. destruct Hrun as [Hrun _].
    destruct (detect_img W (opt_flags FLAGS) yolo) as [t1 r1] eqn:Ed.
    cbn [fst snd] in *.
    split; [discriminate|]. split.
    + intros y E. injection E as <-. rewrite Ed. reflexivity.
    + rewrite Hrun. split; intros Hin.
      * right. right. right. right. apply in_or_app. now right.
      * destruct Hin as [H|[H|[H|[H|Hin]]]]; try discriminate.
        apply in_app_or in Hin. destruct Hin as [Hin|Hin]; [|exact Hin].
        now apply Hinit in Hin.
  - split; [|split; [discriminate|]].
    + intros e E. injection E as <-. reflexivity.
    + split; [discriminate|]. intros Hin.
      destruct Hin as [H|[H|[H|[H|Hin]]]]; try discriminate.
      now apply Hinit in Hin.
Qed.

Lemma main_runs_construction_then_batch_witness :
  main demo_world
    {| opt_model_path := "model_data/yolo.weights"; opt_classes_path := "cls.txt";
       opt_anchors_path := "anchors.txt";
       opt_flags := {| img_root := "img"; summit_dir := "out" |} |}
  = ([Print "model_path  model_data/yolo.weights";
      Print "classes_path  cls.txt"; Print "img_root  img";
      Print "summit_dir  out"], Err (AssertionError h5_message)).
Proof.
  rewrite (proj1 (main_runs_construction_then_batch demo_world
                    {| opt_model_path := "model_data/yolo.weights";
                       opt_classes_path := "cls.txt";
                       opt_anchors_path := "anchors.txt";
                       opt_flags := {| img_root := "img"; summit_dir := "out" |} |})
             (AssertionError h5_message) eq_refl).
  reflexivity.
Defined.
